(** * Project creation pipeline and runtime packaging helpers

    A shallow embedding of two modules of the repository:

    - the [new] command ([create] and its private stages
      [_getAnswers], [_prepareProjectData], [_createS3JawsStructure],
      [_createProjectDirectory], [_createCfStack], [_createProjectJson]);
    - [lib/RuntimeBase.js] (class [ServerlessRuntimeBase]).

    JavaScript strings are sequences of UTF-16 code units.  The development
    covers the strings whose code units are below 256 (the Latin-1 range)
    and represents them as [string]; [toLowerCase], [trim] and the regular
    expression classes used by the source are written out for that range.
    Paths follow the POSIX flavour of Node's [path] module ([path.sep] is
    the slash). *)

From Stdlib Require Import String Ascii List Bool Arith ZArith Lia Permutation.
From stdpp Require Import gmap strings.
Import ListNotations.

Local Open Scope string_scope.
Local Open Scope list_scope.
Local Open Scope nat_scope.

(* ================================================================== *)
(** ** JavaScript string primitives *)
(* ================================================================== *)

Module Js.

Definition code (c : ascii) : nat := nat_of_ascii c.

Definition between (lo hi n : nat) : bool := Nat.leb lo n && Nat.leb n hi.

(** [a-z], [A-Z] and [\d] *)
Definition isLowerAZ (c : ascii) : bool := between 97 122 (code c).
Definition isUpperAZ (c : ascii) : bool := between 65 90 (code c).
Definition isDigit (c : ascii) : bool := between 48 57 (code c).

(** [\s]: WhiteSpace and LineTerminator code units below 256, which are
    TAB, LF, VT, FF, CR, SP and NBSP. *)
Definition isWhiteSpace (c : ascii) : bool :=
  between 9 13 (code c) || Nat.eqb (code c) 32 || Nat.eqb (code c) 160.

(** Latin-1 letters with a lower-case partner 32 code units above. *)
Definition hasLower (c : ascii) : bool :=
  isUpperAZ c || (between 192 222 (code c) && negb (Nat.eqb (code c) 215)).

Definition toLowerChar (c : ascii) : ascii :=
  if hasLower c then ascii_of_nat (code c + 32) else c.

Fixpoint toLowerCase (s : string) : string :=
  match s with
  | EmptyString => EmptyString
  | String c s' => String (toLowerChar c) (toLowerCase s')
  end.

Fixpoint trimStart (s : string) : string :=
  match s with
  | EmptyString => EmptyString
  | String c s' => if isWhiteSpace c then trimStart s' else s
  end.

Fixpoint trimEnd (s : string) : string :=
  match s with
  | EmptyString => EmptyString
  | String c s' =>
      match trimEnd s' with
      | EmptyString => if isWhiteSpace c then EmptyString else String c EmptyString
      | t => String c t
      end
  end.

Definition trim (s : string) : string := trimEnd (trimStart s).

(** [s.replace(/[cls]/g, '')] removes every code unit of the class. *)
Fixpoint removeAll (cls : ascii -> bool) (s : string) : string :=
  match s with
  | EmptyString => EmptyString
  | String c s' => if cls c then removeAll cls s' else String c (removeAll cls s')
  end.

(** [s.replace(/[cls]/g, r)] for a one-unit replacement [r]. *)
Fixpoint replaceAll (cls : ascii -> bool) (r : ascii) (s : string) : string :=
  match s with
  | EmptyString => EmptyString
  | String c s' => String (if cls c then r else c) (replaceAll cls r s')
  end.

Fixpoint forallb (cls : ascii -> bool) (s : string) : bool :=
  match s with
  | EmptyString => true
  | String c s' => cls c && forallb cls s'
  end.

(** [s.substring(0, n)] *)
Fixpoint take (n : nat) (s : string) : string :=
  match n, s with
  | S n', String c s' => String c (take n' s')
  | _, _ => EmptyString
  end.

Fixpoint drop (n : nat) (s : string) : string :=
  match n, s with
  | S n', String _ s' => drop n' s'
  | _, _ => s
  end.

Fixpoint startsWith (pat s : string) : bool :=
  match pat, s with
  | EmptyString, _ => true
  | String a pat', String b s' => Ascii.eqb a b && startsWith pat' s'
  | String _ _, EmptyString => false
  end.

(** [s.indexOf(pat)] counted from [i]; [-1] when [pat] does not occur. *)
Fixpoint indexOfFrom (i : Z) (s pat : string) : Z :=
  if startsWith pat s then i
  else match s with
       | EmptyString => (-1)%Z
       | String _ s' => indexOfFrom (i + 1)%Z s' pat
       end.

Definition indexOf (s pat : string) : Z := indexOfFrom 0%Z s pat.

(** [s.replace(pat, r)] with a string pattern: the first occurrence only.
    The source only passes [''] for [r], which holds no [$] pattern. *)
Fixpoint replace (s pat r : string) : string :=
  if startsWith pat s then r ++ drop (String.length pat) s
  else match s with
       | EmptyString => EmptyString
       | String c s' => String c (replace s' pat r)
       end.

(** [s.split(sep)] for a one-unit separator; never the empty array. *)
Fixpoint split (sep : ascii) (s : string) : list string :=
  match s with
  | EmptyString => [EmptyString]
  | String c s' =>
      if Ascii.eqb c sep then EmptyString :: split sep s'
      else match split sep s' with
           | [] => [String c EmptyString]
           | h :: t => String c h :: t
           end
  end.

(** [parts.join(sep)] *)
Fixpoint joinWith (sep : string) (parts : list string) : string :=
  match parts with
  | [] => EmptyString
  | [p] => p
  | p :: ps => p ++ sep ++ joinWith sep ps
  end.

(** [s.charAt(0) == c] *)
Definition charAt0Is (c : ascii) (s : string) : bool :=
  match s with
  | String a _ => Ascii.eqb a c
  | EmptyString => false
  end.

(** [s.substr(1)] *)
Definition substr1 (s : string) : string := drop 1 s.

Definition isEmpty (s : string) : bool :=
  match s with EmptyString => true | _ => false end.

(** Truthiness of a possibly-undefined string: [undefined] and [''] are
    falsy. *)
Definition truthy (o : option string) : bool :=
  match o with
  | Some s => negb (isEmpty s)
  | None => false
  end.

(** String conversion in a concatenation. *)
Definition str (o : option string) : string :=
  match o with
  | Some s => s
  | None => "undefined"
  end.

End Js.

(** [s] holds [pat] as a substring. *)
Definition occursIn (pat s : string) : Prop :=
  exists pre post, s = (pre ++ pat ++ post)%string.

(** Membership of a code unit in a string. *)
Fixpoint hasChar (c : ascii) (s : string) : bool :=
  match s with
  | EmptyString => false
  | String a s' => Ascii.eqb a c || hasChar c s'
  end.

(* ================================================================== *)
(** ** Node's [path] module, POSIX flavour *)
(* ================================================================== *)

Module Path.

Definition sepChar : ascii := "/"%char.
Definition sep : string := "/".

Definition isAbsolute (p : string) : bool := Js.charAt0Is sepChar p.

Fixpoint endsWithSep (p : string) : bool :=
  match p with
  | EmptyString => false
  | String c EmptyString => Ascii.eqb c sepChar
  | String _ p' => endsWithSep p'
  end.

(** One step of the loop of [normalizeArray]: [res] is the array built
    so far. *)
Definition normalizeStep (allowAboveRoot : bool) (res : list string) (p : string)
  : list string :=
  if Js.isEmpty p || String.eqb p "." then res
  else if String.eqb p ".." then
    match res with
    | [] => if allowAboveRoot then res ++ [".."] else res
    | _ :: _ =>
        if negb (String.eqb (List.last res "") "..") then List.removelast res
        else if allowAboveRoot then res ++ [".."] else res
    end
  else res ++ [p].

Definition normalizeArray (parts : list string) (allowAboveRoot : bool) : list string :=
  List.fold_left (normalizeStep allowAboveRoot) parts [].

Definition normalize (path : string) : string :=
  let isAbs := isAbsolute path in
  let trailingSlash := endsWithSep path in
  let path1 := Js.joinWith sep (normalizeArray (Js.split sepChar path) (negb isAbs)) in
  let path2 := if Js.isEmpty path1 && negb isAbs then "." else path1 in
  let path3 := if negb (Js.isEmpty path2) && trailingSlash then (path2 ++ sep)%string else path2 in
  ((if isAbs then sep else "") ++ path3)%string.

(** The concatenation loop of [path.join]: empty segments are skipped. *)
Definition joinStep (path segment : string) : string :=
  if Js.isEmpty segment then path
  else if Js.isEmpty path then segment
  else (path ++ sep ++ segment)%string.

Definition join (segments : list string) : string :=
  normalize (List.fold_left joinStep segments "").

(** [path.resolve(p)] with one argument, in working directory [cwd]. *)
Definition resolve (cwd p : string) : string :=
  let r1 := if Js.isEmpty p then "" else (p ++ sep)%string in
  let abs1 := isAbsolute p in
  let r2 := if abs1 || Js.isEmpty cwd then r1 else (cwd ++ sep ++ r1)%string in
  let abs2 := if abs1 then true else isAbsolute cwd in
  let body := Js.joinWith sep (normalizeArray (Js.split sepChar r2) (negb abs2)) in
  let out := ((if abs2 then sep else "") ++ body)%string in
  if Js.isEmpty out then "." else out.

Fixpoint stripTrailingSeps (p : string) : string :=
  match p with
  | EmptyString => EmptyString
  | String c p' =>
      match stripTrailingSeps p' with
      | EmptyString => if Ascii.eqb c sepChar then EmptyString else String c EmptyString
      | t => String c t
      end
  end.

(** [path.basename(p)]: what follows the last separator once trailing
    separators are dropped. *)
Definition basename (p : string) : string :=
  List.last (Js.split sepChar (stripTrailingSeps p)) "".

(** [path.dirname(p)] *)
Definition dirname (p : string) : string :=
  let root := if isAbsolute p then sep else "" in
  let body := stripTrailingSeps (if isAbsolute p then Js.substr1 p else p) in
  match Js.split sepChar body with
  | (_ :: _ :: _) as segs => (root ++ Js.joinWith sep (List.removelast segs))%string
  | _ => if Js.isEmpty root then "." else root
  end.

End Path.

(* ================================================================== *)
(** ** Promises, errors and the effects of the [new] command *)
(* ================================================================== *)

(** A JavaScript value that is a string or [undefined]. *)
Abbreviation jsstring := (option string).

Inductive errorCode : Type :=
| UNKNOWN
| INVALID_PROJ_NAME
| MISSING_AWS_CREDS.

Inductive error : Type :=
| JawsError (message : string) (code : errorCode)
| SError (message : string)
| ReferenceError (message : string)
| TypeError (message : string)
| SyntaxError (message : string)
| ENOENT (path : string)
| CollaboratorFailure (operation : string).

(** A settled promise. *)
Inductive outcome (A : Type) : Type :=
| Resolved (value : A)
| Rejected (reason : error).
Arguments Resolved {A} value.
Arguments Rejected {A} reason.

Definition Promise_resolve {A : Type} (a : A) : outcome A := Resolved a.
Definition Promise_reject {A : Type} (e : error) : outcome A := Rejected e.

(** What a file written by the command holds.  The two JSON documents are
    kept structured: [JSON.stringify] is not modelled. *)
Record deployment : Type := {
  dRegion : jsstring;
  iamRoleArnLambda : string;
  iamRoleArnApiGateway : string
}.

Record bucketDescriptor : Type := {
  bName : jsstring;
  bRegion : jsstring
}.

Record projectSection : Type := {
  stages : gmap string (list deployment);
  envVarBucket : bucketDescriptor
}.

Record jawsJson : Type := {
  jName : jsstring;
  jVersion : string;
  jLocation : string;
  jAuthor : string;
  jDescription : string;
  jProject : projectSection
}.

Inductive contents : Type :=
| Text (s : string)
| CfTemplateJson (aaProjectName aaStage aaDataModelPrefix aaNotficationEmail : jsstring)
| ManifestJson (j : jawsJson).

(** Calls that change something outside the process.  Console output, the
    spinner and the prompts are not recorded. *)
Inductive event : Type :=
| ProfilesSet (profile : string) (region keyId secretKey : jsstring)
| CreateBucket (profile region bucket : jsstring)
| PutEnvFile (profile region bucket projName stage : jsstring) (envFileContents : string)
| WriteFile (path : string) (c : contents)
| Mkdir (path : string)
| CfCreateStack (profile region rootPath projName stage notificationEmail : jsstring)
| MonitorCfCreate (profile region : jsstring)
| WriteFileSync (path : string) (c : contents).

(** The credential store ([AWSUtils.profilesSet]). *)
Definition isCredentialStore (e : event) : bool :=
  match e with ProfilesSet _ _ _ _ => true | _ => false end.

(** The object storage service ([AWSUtils.createBucket], [AWSUtils.putEnvFile]). *)
Definition isStorage (e : event) : bool :=
  match e with CreateBucket _ _ _ | PutEnvFile _ _ _ _ _ _ => true | _ => false end.

(** The infrastructure stack service. *)
Definition isStack (e : event) : bool :=
  match e with CfCreateStack _ _ _ _ _ _ | MonitorCfCreate _ _ => true | _ => false end.

(** The local filesystem ([fs.mkdirAsync], [utils.writeFile], [fs.writeFileSync]). *)
Definition isLocalFs (e : event) : bool :=
  match e with WriteFile _ _ | Mkdir _ | WriteFileSync _ _ => true | _ => false end.

(** The path a filesystem call creates. *)
Definition createdPath (e : event) : option string :=
  match e with
  | WriteFile p _ | Mkdir p | WriteFileSync p _ => Some p
  | _ => None
  end.

Record stackOutput : Type := {
  OutputKey : string;
  OutputValue : string
}.

(** Everything the command reads from outside: the process, the disk as it
    is when the command starts, the user, the id generator and the result of
    every collaborator call. *)
Record World : Type := {
  cwd : string;
  existsSync : string -> bool;
  configDir : string;
  profilesMap : list string;
  promptAnswer : string -> string;
  shortid_generate : string;
  succeeds : event -> bool;
  monitorResult : option (list stackOutput)
}.

(** The module-level object [project]. *)
Record Project : Type := {
  name : jsstring;
  awsProfile : jsstring;
  stage : jsstring;
  region : jsstring;
  notificationEmail : jsstring;
  s3Bucket : jsstring;
  rootPath : jsstring
}.

(** [var project = {}] *)
Definition emptyProject : Project :=
  {| name := None; awsProfile := None; stage := None; region := None;
     notificationEmail := None; s3Bucket := None; rootPath := None |}.

Definition setName (v : jsstring) (p : Project) : Project :=
  {| name := v; awsProfile := awsProfile p; stage := stage p; region := region p;
     notificationEmail := notificationEmail p; s3Bucket := s3Bucket p; rootPath := rootPath p |}.
Definition setAwsProfile (v : jsstring) (p : Project) : Project :=
  {| name := name p; awsProfile := v; stage := stage p; region := region p;
     notificationEmail := notificationEmail p; s3Bucket := s3Bucket p; rootPath := rootPath p |}.
Definition setStage (v : jsstring) (p : Project) : Project :=
  {| name := name p; awsProfile := awsProfile p; stage := v; region := region p;
     notificationEmail := notificationEmail p; s3Bucket := s3Bucket p; rootPath := rootPath p |}.
Definition setRegion (v : jsstring) (p : Project) : Project :=
  {| name := name p; awsProfile := awsProfile p; stage := stage p; region := v;
     notificationEmail := notificationEmail p; s3Bucket := s3Bucket p; rootPath := rootPath p |}.
Definition setNotificationEmail (v : jsstring) (p : Project) : Project :=
  {| name := name p; awsProfile := awsProfile p; stage := stage p; region := region p;
     notificationEmail := v; s3Bucket := s3Bucket p; rootPath := rootPath p |}.
Definition setS3Bucket (v : jsstring) (p : Project) : Project :=
  {| name := name p; awsProfile := awsProfile p; stage := stage p; region := region p;
     notificationEmail := notificationEmail p; s3Bucket := v; rootPath := rootPath p |}.
Definition setRootPath (v : jsstring) (p : Project) : Project :=
  {| name := name p; awsProfile := awsProfile p; stage := stage p; region := region p;
     notificationEmail := notificationEmail p; s3Bucket := s3Bucket p; rootPath := v |}.

(** *** The monad of the pipeline

    A computation reads and updates [project], emits the events it performs
    in order, and settles. *)

Definition M (A : Type) : Type := Project -> Project * list event * outcome A.

Definition ret {A : Type} (a : A) : M A := fun p => (p, [], Resolved a).

Definition throw {A : Type} (e : error) : M A := fun p => (p, [], Rejected e).

Definition bind {A B : Type} (m : M A) (k : A -> M B) : M B :=
  fun p =>
    match m p with
    | (p1, t1, Resolved a) =>
        match k a p1 with
        | (p2, t2, r) => (p2, t1 ++ t2, r)
        end
    | (p1, t1, Rejected e) => (p1, t1, Rejected e)
    end.

Notation "x <- m ;; k" := (bind m (fun x => k))
  (at level 100, m at next level, right associativity).
Notation "m ;; k" := (bind m (fun _ => k))
  (at level 100, right associativity).

Definition get : M Project := fun p => (p, [], Resolved p).
Definition modify (f : Project -> Project) : M unit := fun p => (f p, [], Resolved tt).

(** A promise that is built and neither returned nor awaited: nothing
    observes how it settles. *)
Definition discard {A : Type} (_ : outcome A) : M unit := ret tt.

(** Reading a property and calling a string method on it: a [TypeError]
    when the property is [undefined]. *)
Definition method (receiver : jsstring) (what : string) : M string :=
  match receiver with
  | Some s => ret s
  | None => throw (TypeError ("Cannot read property '" ++ what ++ "' of undefined"))
  end.

(** An argument that must be a string ([path.join] checks its arguments). *)
Definition stringArg (v : jsstring) : M string :=
  match v with
  | Some s => ret s
  | None => throw (TypeError "Arguments to path.join must be strings")
  end.

Definition trace {A : Type} (r : Project * list event * outcome A) : list event :=
  snd (fst r).
Definition result {A : Type} (r : Project * list event * outcome A) : outcome A :=
  snd r.
Definition final {A : Type} (r : Project * list event * outcome A) : Project :=
  fst (fst r).

(* ================================================================== *)
(** ** The [new] command *)
(* ================================================================== *)

(** The double quote. *)
Definition dquote : string := String (ascii_of_nat 34) EmptyString.

(** [os.EOL] and the escape [\n] *)
Definition EOL : string := String (ascii_of_nat 10) EmptyString.

(** The class of [/[^a-zA-Z-\d\s:]/]: what the first replacement of the
    normalization removes. *)
Definition notKept (c : ascii) : bool :=
  negb (Js.isLowerAZ c || Js.isUpperAZ c || Ascii.eqb c "-" || Js.isDigit c
        || Js.isWhiteSpace c || Ascii.eqb c ":").

(** The class [[a-zA-Z0-9-]]. *)
Definition isNameChar (c : ascii) : bool :=
  Js.isLowerAZ c || Js.isUpperAZ c || Js.isDigit c || Ascii.eqb c "-".

(** [/^([a-zA-Z0-9-]+)$/.exec(s)] is not [null]. *)
Definition nameOk (s : string) : bool :=
  negb (Js.isEmpty s) && Js.forallb isNameChar s.

(** The class of [/[_-]/]. *)
Definition isUnderscoreOrHyphen (c : ascii) : bool :=
  Ascii.eqb c "_" || Ascii.eqb c "-".

(** [answers.name.toLowerCase().trim().replace(..).replace(..).substring(0, 19)] *)
Definition normalizeName (s : string) : string :=
  Js.take 19
    (Js.replaceAll Js.isWhiteSpace "-"
       (Js.removeAll notKept (Js.trim (Js.toLowerCase s)))).

(** The suffix appended when the name is in use. *)
Definition uniqueSuffix (id : string) : string :=
  Js.removeAll isUnderscoreOrHyphen id.

Section NewCommand.

Variable w : World.

(** A collaborator call: it is attempted, and settles as the world says. *)
Definition call (e : event) (operation : string) : M unit :=
  fun p =>
    (p, [e], if succeeds w e then Resolved tt else Rejected (CollaboratorFailure operation)).

(** [Promise.all] over calls that have all been started: every one is
    attempted, and the promise is rejected as soon as one fails. *)
Definition callAll (es : list event) (operation : string) : M unit :=
  fun p =>
    (p, es, if List.forallb (succeeds w) es then Resolved tt
            else Rejected (CollaboratorFailure operation)).

(** One parameter of [_getAnswers]: prompted for when falsy, an override
    otherwise. *)
Definition promptOrOverride (key : string) (supplied : jsstring)
           (acc : list string * gmap string string) : list string * gmap string string :=
  match supplied with
  | Some v =>
      if Js.isEmpty v then (fst acc ++ [key], snd acc)
      else (fst acc, <[key := v]> (snd acc))
  | None => (fst acc ++ [key], snd acc)
  end.

(** [inquirer.prompt(prompts)]: one answer per prompt. *)
Definition inquirer_prompt (prompts : list string) : gmap string string :=
  list_to_map (List.map (fun k => (k, promptAnswer w k)) prompts).

(** [extend(answers, overrideAnswers)]: the overrides win. *)
Definition extend (answers overrideAnswers : gmap string string) : gmap string string :=
  overrideAnswers ∪ answers.

Definition _getAnswers (projName stage s3Bucket lambdaRegion notificationEmail
                          awsProfile : jsstring) : M (gmap string string) :=
  let acc0 : list string * gmap string string := ([], ∅) in
  let acc1 := promptOrOverride "name" projName acc0 in
  let acc2 := promptOrOverride "stage" stage acc1 in
  let acc3 := promptOrOverride "s3Bucket" s3Bucket acc2 in
  let acc4 := promptOrOverride "region" lambdaRegion acc3 in
  let acc5 := promptOrOverride "notificationEmail" notificationEmail acc4 in
  let acc6 :=
    if existsSync w (Path.join [configDir w; "credentials"]) then
      match awsProfile with
      | Some a =>
          if negb (Js.isEmpty a) && List.existsb (String.eqb a) (profilesMap w)
          then (fst acc5, <["awsProfile" := a]> (snd acc5))
          else ("awsProfile" :: fst acc5, snd acc5)
      | None => ("awsProfile" :: fst acc5, snd acc5)
      end
    else ("awsAdminKeyId" :: "awsAdminSecretKey" :: fst acc5, snd acc5) in
  match fst acc6 with
  | _ :: _ => ret (extend (inquirer_prompt (fst acc6)) (snd acc6))
  | [] => ret (snd acc6)
  end.

Definition _prepareProjectData (answers : gmap string string) : M unit :=
  stage0 <- method (answers !! "stage") "toLowerCase" ;;
  (if String.eqb (Js.toLowerCase stage0) "local"
   then discard (@Promise_reject unit
                   (JawsError ("Stage " ++ stage0 ++ " is reserved") UNKNOWN))
   else ret tt) ;;
  name0 <- method (answers !! "name") "toLowerCase" ;;
  modify (setName (Some (normalizeName name0))) ;;
  (* AWS only allows Alphanumeric and - in name *)
  (if negb (nameOk (normalizeName name0))
   then discard (@Promise_reject unit
                   (JawsError "Project names can only be alphanumeric and -"
                              INVALID_PROJ_NAME))
   else ret tt) ;;
  (* Append unique id if name is in use *)
  (if existsSync w (Path.join [cwd w; normalizeName name0])
   then modify (setName (Some (normalizeName name0 ++ "-"
                                 ++ uniqueSuffix (shortid_generate w))%string))
   else ret tt) ;;
  (* Set or Create Profile *)
  (if Js.truthy (answers !! "awsProfile")
   then modify (setAwsProfile (answers !! "awsProfile"))
   else
     (* [reject] is bound nowhere in the module: evaluating the callee
        throws before the [JawsError] is built *)
     (if negb (Js.truthy (answers !! "awsAdminKeyId"))
      then throw (ReferenceError "reject is not defined") else ret tt) ;;
     (if negb (Js.truthy (answers !! "awsAdminSecretKey"))
      then throw (ReferenceError "reject is not defined") else ret tt) ;;
     (* Set profile *)
     call (ProfilesSet "default" (answers !! "region") (answers !! "awsAdminKeyId")
                       (answers !! "awsAdminSecretKey")) "profilesSet" ;;
     modify (setAwsProfile (Some "default"))) ;;
  (* Set other project data *)
  modify (setStage (answers !! "stage")) ;;
  modify (setRegion (answers !! "region")) ;;
  email <- method (answers !! "notificationEmail") "trim" ;;
  modify (setNotificationEmail (Some (Js.trim email))) ;;
  modify (setS3Bucket (answers !! "s3Bucket")) ;;
  ret tt.

(** ['JAWS_STAGE=' + project.stage + '\nJAWS_DATA_MODEL_PREFIX=' + project.stage] *)
Definition envFile (p : Project) : string :=
  "JAWS_STAGE=" ++ Js.str (stage p) ++ EOL ++ "JAWS_DATA_MODEL_PREFIX=" ++ Js.str (stage p).

Definition _createProjectDirectory : M unit :=
  (* Set Root Path *)
  p0 <- get ;;
  name0 <- stringArg (name p0) ;;
  modify (setRootPath (Some (Path.resolve (cwd w) (Path.join [Path.dirname "."; name0])))) ;;
  p <- get ;;
  root <- stringArg (rootPath p) ;;
  (* Prepare admin.env *)
  let adminEnv := ("ADMIN_AWS_PROFILE=" ++ Js.str (awsProfile p) ++ EOL)%string in
  (* Prepare CloudFormation template *)
  let cfTemplate := CfTemplateJson (name p) (stage p) (stage p) (notificationEmail p) in
  (* Create files *)
  call (WriteFile (Path.join [root; "back"; ".env"]) (Text (envFile p))) "writeFile" ;;
  callAll [ Mkdir (Path.join [root; "front"]);
            Mkdir (Path.join [root; "tests"]);
            Mkdir (Path.join [root; "back/lambdas"]);
            Mkdir (Path.join [root; "back/lib"]);
            WriteFile (Path.join [root; "admin.env"]) (Text adminEnv);
            WriteFile (Path.join [root; "jaws-cf.json"]) cfTemplate ] "Promise.all".

Definition _createS3JawsStructure : M unit :=
  p <- get ;;
  call (CreateBucket (awsProfile p) (region p) (s3Bucket p)) "createBucket" ;;
  call (PutEnvFile (awsProfile p) (region p) (s3Bucket p) (name p) (stage p) (envFile p))
       "putEnvFile".

Definition _createCfStack : M (option (list stackOutput)) :=
  p <- get ;;
  call (CfCreateStack (awsProfile p) (region p) (rootPath p) (name p) (stage p)
                      (notificationEmail p)) "cfCreateStack" ;;
  call (MonitorCfCreate (awsProfile p) (region p)) "monitorCfCreate" ;;
  ret (monitorResult w).

(** The loop over [cfOutputs]: the last output with the key wins. *)
Definition lookupOutput (key : string) (cfOutputs : list stackOutput) : jsstring :=
  List.fold_left
    (fun acc o => if String.eqb (OutputKey o) key then Some (OutputValue o) else acc)
    cfOutputs None.

(** [v || ''] *)
Definition orEmpty (v : jsstring) : string :=
  match v with
  | Some s => s
  | None => ""
  end.

Definition _createProjectJson (cfOutputs : option (list stackOutput)) : M jawsJson :=
  let iamRoleArnLambda0 :=
    match cfOutputs with
    | Some os => lookupOutput "IamRoleArnLambda" os
    | None => None
    end in
  let iamRoleArnApiGateway0 :=
    match cfOutputs with
    | Some os => lookupOutput "IamRoleArnApiGateway" os
    | None => None
    end in
  p <- get ;;
  let stages0 : gmap string (list deployment) := ∅ in
  let stages1 := <[Js.str (stage p) := []]> stages0 in
  let stages2 :=
    alter (fun l => l ++ [ {| dRegion := region p;
                              iamRoleArnLambda := orEmpty iamRoleArnLambda0;
                              iamRoleArnApiGateway := orEmpty iamRoleArnApiGateway0 |} ])
          (Js.str (stage p)) stages1 in
  let json :=
    {| jName := name p;
       jVersion := "0.0.1";
       jLocation := "<enter project's github repository url here>";
       jAuthor := "Vera D. Servers <vera@gmail.com> http://vera.io";
       jDescription :=
         Js.str (name p)
         ++ ": An ambitious, server-less application built with the JAWS framework.";
       jProject :=
         {| stages := stages2;
            envVarBucket := {| bName := s3Bucket p; bRegion := region p |} |} |} in
  root <- stringArg (rootPath p) ;;
  call (WriteFileSync (Path.join [root; "jaws.json"]) (ManifestJson json)) "writeFileSync" ;;
  ret json.

Definition create (projName stage s3Bucket lambdaRegion notificationEmail
                     awsProfile : jsstring) (noExeCf : bool) : M jawsJson :=
  answers <- _getAnswers projName stage s3Bucket lambdaRegion notificationEmail awsProfile ;;
  _prepareProjectData answers ;;
  _createS3JawsStructure ;; (* see if bucket is avail first before doing work *)
  _createProjectDirectory ;;
  (if noExeCf then _createProjectJson None
   else cfOutputs <- _createCfStack ;; _createProjectJson cfOutputs).

End NewCommand.

(* ================================================================== *)
(** ** [lib/RuntimeBase.js] *)
(* ================================================================== *)

(** How a call completes: it returns a value or throws. *)
Inductive completion (A : Type) : Type :=
| Return (value : A)
| Throw (exception : error).
Arguments Return {A} value.
Arguments Throw {A} exception.

(** The disk as a tree of regular files and directories; the entries of a
    directory are in the order [fs.readdirSync] lists them. *)
#[warnings="-register-all"] Inductive node : Type :=
| File
| Directory (entries : list (string * node)).

Module Fs.

Fixpoint lookupEntry (nm : string) (es : list (string * node)) : option node :=
  match es with
  | [] => None
  | (k, n) :: es' => if String.eqb k nm then Some n else lookupEntry nm es'
  end.

Fixpoint find (segments : list string) (n : node) : option node :=
  match segments with
  | [] => Some n
  | seg :: rest =>
      match n with
      | File => None
      | Directory es =>
          match lookupEntry seg es with
          | Some child => find rest child
          | None => None
          end
      end
  end.

(** [fs.lstatSync(p)] for an absolute, normalized path: the node there,
    or nothing (the call throws). *)
Definition lstatSync (disk : node) (p : string) : option node :=
  find (List.filter (fun seg => negb (Js.isEmpty seg)) (Js.split Path.sepChar p)) disk.

(** [wrench.readdirSyncRecursive(dir)]: the entries of the directory, then
    what each of its sub-directories holds, as paths relative to [dir]. *)
Fixpoint readdirSyncRecursive (n : node) : list string :=
  match n with
  | File => []
  | Directory es =>
      List.map fst es
      ++ List.flat_map
           (fun e =>
              List.map (fun f => Path.join [fst e; f]) (readdirSyncRecursive (snd e))) es
  end.

End Fs.

Module ServerlessRuntimeBase.

(** An entry of the list [_generateIncludePaths] builds. *)
Record compressPath : Type := {
  name : string;
  path : string
}.

(** What the promises of this class are settled with. *)
Inductive value : Type :=
| Undefined
| Executor (pathDist : string)
| CompressPaths (l : list compressPath).

(** A function of the project.  [getRootPath] belongs to the function
    class, which this module only calls. *)
Record Func : Type := {
  getName : string;
  handler : string;
  getRootPath : string -> string;
  excludePatterns : option (list string);
  includePaths : option (list string)
}.

Inductive call : Type :=
| CopyDirSyncRecursive (packageRoot pathDist : string) (exclude : option (list string)).

(** The runtime instance: its name and the project of [this.S]. *)
Record Runtime : Type := {
  runtimeName : string;
  projectRootPath : list string -> string
}.

Section Methods.

(** [new RegExp(source)]: the compiled expression as the predicate
    [exec(s) !== null], or nothing when the source is not a regular
    expression (the constructor throws). *)
Variable RegExp : string -> option (string -> bool).

(** [wrench.copyDirSyncRecursive]: the disk after the copy. *)
Variable copyDirSyncRecursive :
  node -> string -> string -> (string -> string -> completion bool) -> completion node.

Variable cwd : string.

Variable this : Runtime.

Definition scaffold (func : Func) : completion (outcome value) :=
  Return (Promise_resolve Undefined).

Definition getName_ : string := runtimeName this.

Definition run (func : Func) : completion (outcome value) :=
  Return (Promise_reject
            (SError ("Runtime " ++ dquote ++ getName_ ++ dquote ++ " should implement "
                    ++ dquote ++ "run()" ++ dquote ++ " method"))).

Definition build (func : Func) (stage region : string) (disk : node)
  : node * list call * completion (outcome value) :=
  (disk, [], Return (Promise_resolve Undefined)).

Definition installDependencies (dir : string) : completion (outcome value) :=
  Return (Promise_reject
            (SError ("Runtime " ++ dquote ++ getName_ ++ dquote ++ " should implement "
                    ++ dquote ++ "installDepedencies()" ++ dquote ++ " method"))).

(** The path computed by [_createDistDir]; [time] is [d.getTime()] in
    decimal. *)
Definition distDirPath (funcName time : string) : string :=
  projectRootPath this ["_meta"; "_tmp"; (funcName ++ "@" ++ time)%string].

(** [BbPromise.resolve(function(resolve, reject) {..})]: the promise is
    resolved with the function, which nothing calls. *)
Definition _createDistDir (funcName time : string) (disk : node)
  : node * list call * completion (outcome value) :=
  (disk, [], Return (Promise_resolve (Executor (distDirPath funcName time)))).

(** [(relPath.charAt(0) == path.sep) ? relPath.substr(1) : relPath] *)
Definition stripLeadingSep (relPath : string) : string :=
  if Js.charAt0Is Path.sepChar relPath then Js.substr1 relPath else relPath.

(** The callback given to [excludePatterns.some], with the variable
    [relPath] it assigns. *)
Fixpoint some (relPath : string) (patterns : list string) : completion bool :=
  match patterns with
  | [] => Return false
  | sRegex :: rest =>
      let relPath' := stripLeadingSep relPath in
      match RegExp sRegex with
      | None => Throw (SyntaxError ("Invalid regular expression: /" ++ sRegex ++ "/"))
      | Some re =>
          if re relPath' then Return true else some relPath' rest
      end
  end.

(** [func.custom.excludePatterns || []] *)
Definition patternsOf (func : Func) : list string :=
  match excludePatterns func with Some l => l | None => [] end.

Definition _exclude (func : Func) (pathDist stage region : string)
  : string -> string -> completion bool :=
  let patterns := patternsOf func in
  fun name prefix =>
    match patterns with
    | [] => Return false
    | _ :: _ =>
        let relPath := Path.join [Js.replace prefix pathDist ""; name] in
        some relPath patterns
    end.

(** [func.handler.split('/')[func.handler.split('/').length - 1]] *)
Definition handlerFileName (func : Func) : string :=
  List.last (Js.split "/" (handler func)) "".

Definition invalidHandler (func : Func) : error :=
  SError ("This function's handler is invalid and not in the file system: "
          ++ handler func).

(** The body shared, word for word, by [_copyFunction] and [_copyDir];
    [BbPromise.try] turns what the body throws into a rejection.  What
    [wrench.copyDirSyncRecursive] returns is not looked at by any caller
    and is kept as [Undefined]. *)
Definition copyBody (func : Func) (pathDist stage region : string) (disk : node)
  : node * list call * completion (outcome value) :=
  (* Extract the root of the lambda package from the handler property *)
  let handlerFullPath := getRootPath func (handlerFileName func) in
  (* Check handler is correct *)
  if Z.eqb (Js.indexOf handlerFullPath (handler func)) (-1)
  then (disk, [], Return (Promise_reject (invalidHandler func)))
  else
    let packageRoot := Js.replace handlerFullPath (handler func) "" in
    let excl := _exclude func pathDist stage region in
    match copyDirSyncRecursive disk packageRoot pathDist excl with
    | Return disk' =>
        (disk', [CopyDirSyncRecursive packageRoot pathDist (excludePatterns func)],
         Return (Promise_resolve Undefined))
    | Throw e =>
        (disk, [CopyDirSyncRecursive packageRoot pathDist (excludePatterns func)],
         Return (Promise_reject e))
    end.


Definition _copyDir := copyBody.

Definition _afterCopyDir (func : Func) (pathDist stage region : string) (disk : node)
  : node * list call * completion (outcome value) :=
  (disk, [], Return (Promise_resolve Undefined)).

Definition ignore : list string := [".DS_Store"].

(** The loop over [ignore] in the callback of [_generateIncludePaths]. *)
Definition ignored (file : string) : bool :=
  List.existsb (fun i => Z.ltb (-1) (Js.indexOf (Js.toLowerCase file) i)) ignore.

(** The callback over the files of a directory include path. *)
Fixpoint eachFile (disk : node) (fullPath dirname : string) (files : list string)
         (compressPaths : list compressPath) : completion (list compressPath) :=
  match files with
  | [] => Return compressPaths
  | file :: rest =>
      (* Ignore certain files *)
      if ignored file then eachFile disk fullPath dirname rest compressPaths
      else
        let filePath := Path.join [fullPath; file] in
        match Fs.lstatSync disk filePath with
        | None => Throw (ENOENT filePath)
        | Some File =>
            let pathInZip := Path.join [dirname; file] in
            eachFile disk fullPath dirname rest
                     (compressPaths ++ [ {| name := pathInZip; path := filePath |} ])
        | Some (Directory _) => eachFile disk fullPath dirname rest compressPaths
        end
  end.

(** The callback over [includePaths]. *)
Fixpoint eachIncludePath (disk : node) (pathDist : string) (ps : list string)
         (compressPaths : list compressPath) : completion (list compressPath) :=
  match ps with
  | [] => Return compressPaths
  | p :: rest =>
      let fullPath := Path.resolve cwd (Path.join [pathDist; p]) in
      match Fs.lstatSync disk fullPath with
      | None => Throw (ENOENT fullPath)
      | Some File =>
          eachIncludePath disk pathDist rest
                          (compressPaths ++ [ {| name := p; path := fullPath |} ])
      | Some (Directory _ as d) =>
          let dirname := Path.basename p in
          match eachFile disk fullPath dirname (Fs.readdirSyncRecursive d) compressPaths with
          | Return compressPaths' => eachIncludePath disk pathDist rest compressPaths'
          | Throw e => Throw e
          end
      end
  end.

Definition _generateIncludePaths (func : Func) (pathDist : string) (disk : node)
  : completion (outcome value) :=
  (* Zip up whatever is in back *)
  let ps := match includePaths func with Some l => l | None => ["."] end in
  match eachIncludePath disk pathDist ps [] with
  | Return compressPaths => Return (Promise_resolve (CompressPaths compressPaths))
  | Throw e => Throw e
  end.

Definition getHandler (func : Func) : string := handler func.

(** *** The packaging pipeline as the specification words it

    "create distribution directory, copy with exclusions, post-copy
    hook, collect include paths", each step run when the one before has
    resolved, the manifest being the result.  The steps are the
    methods above; the distribution directory is the path
    [_createDistDir] computes. *)
Definition spec_build (func : Func) (stage region time : string) (disk : node)
  : node * list call * completion (outcome value) :=
  let pathDist := distDirPath (getName func) time in
  match _copyDir func pathDist stage region disk with
  | (disk1, calls1, Return (Resolved _)) =>
      match _afterCopyDir func pathDist stage region disk1 with
      | (disk2, calls2, Return (Resolved _)) =>
          (disk2, calls1 ++ calls2, _generateIncludePaths func pathDist disk2)
      | (disk2, calls2, r) => (disk2, calls1 ++ calls2, r)
      end
  | r => r
  end.

End Methods.

End ServerlessRuntimeBase.

(** A segment of a normalized path: not empty, and not starting with the
    separator. *)
Definition segOk (seg : string) : Prop :=
  seg <> EmptyString /\ Js.charAt0Is Path.sepChar seg = false.

(* ================================================================== *)
(** ** Notions used by the statements *)
(* ================================================================== *)

(** The candidate path of [_exclude]: the directory [prefix] with the
    packaging root [pathDist] taken out, joined with [name], without a
    leading separator. *)
Definition relativePath (pathDist prefix name : string) : string :=
  ServerlessRuntimeBase.stripLeadingSep (Path.join [Js.replace prefix pathDist ""; name]).


(** An engine for the examples: a literal, anchored at the start when it
    follows a caret; a leading asterisk has nothing to repeat and is no
    regular expression. *)
Definition sampleRegExp (source : string) : option (string -> bool) :=
  match source with
  | String "*" _ => None
  | String "^" literal => Some (fun s => Js.startsWith literal s)
  | literal => Some (fun s => negb (Z.eqb (Js.indexOf s literal) (-1)))
  end.

(** A function that excludes its tests and its vendored modules. *)
Definition sampleFunc : ServerlessRuntimeBase.Func :=
  {| ServerlessRuntimeBase.getName := "hello";
     ServerlessRuntimeBase.handler := "hello/handler.handler";
     ServerlessRuntimeBase.getRootPath := fun f => Path.join ["/proj/functions/hello"; f];
     ServerlessRuntimeBase.excludePatterns := Some ["^tests/"; "node_modules"];
     ServerlessRuntimeBase.includePaths := None |}.

(** The entry point of [func] lies inside its package root: the full path
    of the handler file is a package root followed by the declared handler
    path (and possibly more). *)
Definition resolvesInside (func : ServerlessRuntimeBase.Func) : Prop :=
  occursIn (ServerlessRuntimeBase.handler func)
           (ServerlessRuntimeBase.getRootPath func (ServerlessRuntimeBase.handlerFileName func)).

(** A function whose declared handler names another directory. *)
Definition strayFunc : ServerlessRuntimeBase.Func :=
  {| ServerlessRuntimeBase.getName := "hello";
     ServerlessRuntimeBase.handler := "other/handler.handler";
     ServerlessRuntimeBase.getRootPath := fun f => Path.join ["/proj/functions/hello"; f];
     ServerlessRuntimeBase.excludePatterns := None;
     ServerlessRuntimeBase.includePaths := None |}.

(** A function that includes its whole distribution directory. *)
Definition dotFunc : ServerlessRuntimeBase.Func :=
  {| ServerlessRuntimeBase.getName := "hello";
     ServerlessRuntimeBase.handler := "hello/handler.handler";
     ServerlessRuntimeBase.getRootPath := fun f => Path.join ["/proj/functions/hello"; f];
     ServerlessRuntimeBase.excludePatterns := None;
     ServerlessRuntimeBase.includePaths := Some ["."] |}.

(** The entries of a distribution directory that holds [index.js],
    [lib/helper.js] and [.DS_Store]. *)
Definition distEntries : list (string * node) :=
  [ ("index.js", File); ("lib", Directory [("helper.js", File)]); (".DS_Store", File) ].

(** A disk whose only content is that distribution directory, at [/dist]. *)
Definition diskWith (entries : list (string * node)) : node :=
  Directory [("dist", Directory entries)].

Definition sampleRuntime : ServerlessRuntimeBase.Runtime :=
  {| ServerlessRuntimeBase.runtimeName := "nodejs";
     ServerlessRuntimeBase.projectRootPath := fun segs => Path.join ("/proj" :: segs) |}.

(** Every event a computation performs, from whatever [project], is of
    kind [Q]. *)
Definition emits {A : Type} (Q : event -> bool) (m : M A) : Prop :=
  forall p, Forall (fun e => Q e = true) (trace (m p)).


(** The calls that come after the storage step: the scaffold, the stack and
    the manifest. *)
Definition isLater (e : event) : bool := isLocalFs e || isStack e.


(** A world for the examples: stored credentials with a [default] profile,
    an empty working directory, and collaborators that all succeed. *)
Definition calmWorld : World :=
  {| cwd := "/home/u";
     existsSync := fun p => String.eqb p "/home/u/.aws/credentials";
     configDir := "/home/u/.aws";
     profilesMap := ["default"];
     promptAnswer := fun _ => "";
     shortid_generate := "23TplPdS";
     succeeds := fun _ => true;
     monitorResult :=
       Some [ {| OutputKey := "IamRoleArnLambda"; OutputValue := "arn:aws:iam::1:role/l" |};
              {| OutputKey := "IamRoleArnApiGateway"; OutputValue := "arn:aws:iam::1:role/g" |} ] |}.

(** The same world where the bucket cannot be created. *)
Definition noBucketWorld : World :=
  {| cwd := cwd calmWorld;
     existsSync := existsSync calmWorld;
     configDir := configDir calmWorld;
     profilesMap := profilesMap calmWorld;
     promptAnswer := promptAnswer calmWorld;
     shortid_generate := shortid_generate calmWorld;
     succeeds := fun e => match e with CreateBucket _ _ _ => false | _ => true end;
     monitorResult := monitorResult calmWorld |}.


(** A computation is only ever rejected with an error of kind [R]. *)
Definition rejectsOnly {A : Type} (R : error -> bool) (m : M A) : Prop :=
  forall p e, result (m p) = Rejected e -> R e = true.

(** Errors other than a [JawsError]. *)
Definition notJawsError (e : error) : bool :=
  match e with
  | JawsError _ _ => false
  | _ => true
  end.

Definition settled {A : Type} (o : outcome A) : bool :=
  match o with
  | Resolved _ => true
  | Rejected _ => false
  end.

(** A world without stored credentials, where the user leaves the access
    key id empty. *)
Definition noCredentialsWorld : World :=
  {| cwd := "/home/u";
     existsSync := fun _ => false;
     configDir := "/home/u/.aws";
     profilesMap := [];
     promptAnswer := fun k => if String.eqb k "awsAdminKeyId" then "" else "s3cr3t";
     shortid_generate := "23TplPdS";
     succeeds := fun _ => true;
     monitorResult := None |}.

(** Answers without a profile and without an access key id. *)
Definition answersNoKey : gmap string string :=
  list_to_map [ ("name", "demo"); ("stage", "dev"); ("s3Bucket", "demo.example.com");
                ("region", "us-east-1"); ("notificationEmail", "ops@example.com");
                ("awsAdminSecretKey", "s3cr3t") ].

(** Answers without a profile and without a secret key. *)
Definition answersNoSecret : gmap string string :=
  list_to_map [ ("name", "demo"); ("stage", "dev"); ("s3Bucket", "demo.example.com");
                ("region", "us-east-1"); ("notificationEmail", "ops@example.com");
                ("awsAdminKeyId", "AKIAEXAMPLE") ].


Definition answersDemo : gmap string string :=
  list_to_map [ ("name", "demo"); ("stage", "dev"); ("s3Bucket", "demo.example.com");
                ("region", "us-east-1"); ("notificationEmail", "ops@example.com");
                ("awsProfile", "default") ].





(* ================================================================== *)
(** ** Notions used by the further properties *)
(* ================================================================== *)

(** The value an answer ends with: the supplied parameter when it is
    truthy, what the user answers to the prompt otherwise. *)
Definition chosen (w : World) (key : string) (supplied : option string) : option string :=
  if Js.truthy supplied then supplied else Some (promptAnswer w key).

(** The profile is supplied and is one of the stored profiles. *)
Definition knownProfile (w : World) (supplied : option string) : bool :=
  match supplied with
  | Some a => negb (Js.isEmpty a) && List.existsb (String.eqb a) (profilesMap w)
  | None => false
  end.

(** The class [[a-z0-9:-]]: what a normalized name is made of. *)
Definition isNormalChar (c : ascii) : bool :=
  Js.isLowerAZ c || Js.isDigit c || Ascii.eqb c "-" || Ascii.eqb c ":".

(** The name the project gets from the answer [nm]: the normalized name,
    with the suffix when its directory exists. *)
Definition projectName (w : World) (nm : string) : string :=
  if existsSync w (Path.join [cwd w; normalizeName nm])
  then (normalizeName nm ++ "-" ++ uniqueSuffix (shortid_generate w))%string
  else normalizeName nm.

(** The call that stores the admin keys as the profile [default]. *)
Definition defaultProfileCall (answers : gmap string string) : event :=
  ProfilesSet "default" (answers !! "region") (answers !! "awsAdminKeyId")
              (answers !! "awsAdminSecretKey").

(** A triple for a stage: from a [project] that satisfies [I], the stage
    resolves with a value and a [project] that satisfy [J], or is rejected
    with an error of kind [R]. *)
Definition hoare {A : Type} (I : Project -> Prop) (m : M A) (R : error -> bool)
           (J : A -> Project -> Prop) : Prop :=
  forall p, I p ->
            match m p with
            | (p', _, Resolved a) => J a p'
            | (_, _, Rejected e) => R e = true
            end.

(** The two errors a run of [create] can end with. *)
Definition expectedFailure (e : error) : bool :=
  match e with
  | ReferenceError message => String.eqb message "reject is not defined"
  | CollaboratorFailure _ => true
  | _ => false
  end.

(** A computation is rejected with a collaborator failure when one of its
    calls failed, and only then. *)
Definition faithful {A : Type} (w : World) (m : M A) : Prop :=
  forall p,
    match result (m p) with
    | Rejected (CollaboratorFailure _) =>
        Exists (fun e => succeeds w e = false) (trace (m p))
    | _ => Forall (fun e => succeeds w e = true) (trace (m p))
    end.

(** [iamRoleArn.. || ''] for the output named [key] of the stack. *)
Definition roleOutput (key : string) (cfOutputs : option (list stackOutput)) : string :=
  orEmpty (match cfOutputs with
           | Some os => lookupOutput key os
           | None => None
           end).

(** Manifest [j] is the one of project [p] and of the stack outputs: its
    name, its single stage with its single deployment record, and its
    bucket descriptor. *)
Definition described (p : Project) (cfOutputs : option (list stackOutput)) (j : jawsJson)
  : Prop :=
  jName j = name p
  /\ stages (jProject j)
     = {[ Js.str (stage p)
          := [ {| dRegion := region p;
                  iamRoleArnLambda := roleOutput "IamRoleArnLambda" cfOutputs;
                  iamRoleArnApiGateway := roleOutput "IamRoleArnApiGateway" cfOutputs |} ] ]}
  /\ envVarBucket (jProject j) = {| bName := s3Bucket p; bRegion := region p |}.

(** The root path of a project named [n]. *)
Definition rootOf (w : World) (n : string) : string :=
  Path.resolve (cwd w) (Path.join [Path.dirname "."; n]).

(** The first write of the scaffold, which makes the tree down to
    [back/.env]. *)
Definition envWrite (root : string) (p : Project) : event :=
  WriteFile (Path.join [root; "back"; ".env"]) (Text (envFile p)).

(** The six operations of the scaffold that are started together. *)
Definition scaffoldGroup (root : string) (p : Project) : list event :=
  [ Mkdir (Path.join [root; "front"]);
    Mkdir (Path.join [root; "tests"]);
    Mkdir (Path.join [root; "back/lambdas"]);
    Mkdir (Path.join [root; "back/lib"]);
    WriteFile (Path.join [root; "admin.env"])
              (Text ("ADMIN_AWS_PROFILE=" ++ Js.str (awsProfile p) ++ EOL)%string);
    WriteFile (Path.join [root; "jaws-cf.json"])
              (CfTemplateJson (name p) (stage p) (stage p) (notificationEmail p)) ].

(** The upload of the stage environment file. *)
Definition isPutEnvFile (e : event) : bool :=
  match e with PutEnvFile _ _ _ _ _ _ => true | _ => false end.
(** The project of the examples, before its scaffold. *)
Definition demoProject : Project :=
  {| name := Some "demo"; awsProfile := Some "default"; stage := Some "dev";
     region := Some "us-east-1"; notificationEmail := Some "ops@example.com";
     s3Bucket := Some "demo.example.com"; rootPath := None |}.

(** The components of a path: what lies between its separators. *)
Definition segments (p : string) : list string :=
  List.filter (fun seg => negb (Js.isEmpty seg)) (Js.split Path.sepChar p).



(** The matcher without the variable the callback assigns: the patterns
    are tried in order against one fixed candidate. *)
Fixpoint firstMatch (RegExp : string -> option (string -> bool)) (candidate : string)
         (patterns : list string) : completion bool :=
  match patterns with
  | [] => Return false
  | sRegex :: rest =>
      match RegExp sRegex with
      | None => Throw (SyntaxError ("Invalid regular expression: /" ++ sRegex ++ "/"))
      | Some re => if re candidate then Return true else firstMatch RegExp candidate rest
      end
  end.
(** [sampleFunc] with one more pattern, which is no regular expression. *)
Definition brokenFunc : ServerlessRuntimeBase.Func :=
  {| ServerlessRuntimeBase.getName := "hello";
     ServerlessRuntimeBase.handler := "hello/handler.handler";
     ServerlessRuntimeBase.getRootPath := fun f => Path.join ["/proj/functions/hello"; f];
     ServerlessRuntimeBase.excludePatterns := Some ["^tests/"; "node_modules"; "*"];
     ServerlessRuntimeBase.includePaths := None |}.
(** [path.resolve(path.join(pathDist, p))]: where an include path is looked
    up. *)
Definition fullPathOf (cwd0 pathDist p : string) : string :=
  Path.resolve cwd0 (Path.join [pathDist; p]).

(** [func.custom.includePaths || ['.']] *)
Definition includePathsOf (func : ServerlessRuntimeBase.Func) : list string :=
  match ServerlessRuntimeBase.includePaths func with
  | Some l => l
  | None => ["."]
  end.

(** A function that includes two files by name. *)
Definition filesFunc : ServerlessRuntimeBase.Func :=
  {| ServerlessRuntimeBase.getName := "hello";
     ServerlessRuntimeBase.handler := "hello/handler.handler";
     ServerlessRuntimeBase.getRootPath := fun f => Path.join ["/proj/functions/hello"; f];
     ServerlessRuntimeBase.excludePatterns := None;
     ServerlessRuntimeBase.includePaths := Some ["lib/helper.js"; "index.js"] |}.

(* ================================================================== *)
(** * Properties *)
(* ================================================================== *)

(** ** Strings *)

Example toLowerCase_ex : Js.toLowerCase "My Proj.DS_Store" = "my proj.ds_store".
Proof. reflexivity. Qed.

Example split_ex : Js.split "/" "a/b//c/" = ["a"; "b"; ""; "c"; ""].
Proof. reflexivity. Qed.

Example replace_ex : Js.replace "/src/fn/handler.js" "fn/handler.js" "" = "/src/".
Proof. reflexivity. Qed.

Example indexOf_ex : Js.indexOf "/src/fn/handler.js" "fn/" = 5%Z /\ Js.indexOf "abc" "x" = (-1)%Z.
Proof. split; reflexivity. Qed.

Example trim_ex : Js.trim "  a b  " = "a b".
Proof. reflexivity. Qed.

Example normalize_ex :
  Path.normalize "/a//b/../c/./" = "/a/c/" /\ Path.normalize "" = "." /\
  Path.normalize "../x" = "../x" /\ Path.normalize "/.." = "/".
Proof. repeat split; reflexivity. Qed.

Example join_ex :
  Path.join ["/tmp/dist"; "."] = "/tmp/dist" /\ Path.join [""; "index.js"] = "index.js" /\
  Path.join ["."; "lib/helper.js"] = "lib/helper.js" /\ Path.join ["/"; "a"] = "/a".
Proof. repeat split; reflexivity. Qed.

Example resolve_ex :
  Path.resolve "/home/u" "demo" = "/home/u/demo" /\ Path.resolve "/home/u" "/x/./y/" = "/x/y".
Proof. split; reflexivity. Qed.

Example basename_dirname_ex :
  Path.basename "." = "." /\ Path.basename "a/lib/" = "lib" /\ Path.dirname "." = "." /\
  Path.dirname "/a/b" = "/a".
Proof. repeat split; reflexivity. Qed.

Lemma toLowerChar_not_upper (c : ascii) : Js.isUpperAZ (Js.toLowerChar c) = false.
Proof. destruct c as [[] [] [] [] [] [] [] []]; reflexivity. Qed.

Lemma startsWith_app (pat s : string) :
  Js.startsWith pat s = true <-> exists post, s = (pat ++ post)%string.
Proof.
  revert s. induction pat as [|a pat IH]; intros s; simpl.
  - split; [intros _; now exists s | reflexivity].
  - destruct s as [|b s]; simpl.
    + split; [discriminate | intros [post H]; discriminate].
    + rewrite andb_true_iff, Ascii.eqb_eq, IH. split.
      * intros [-> [post ->]]. now exists post.
      * intros [post H]. injection H as -> ->. split; [reflexivity | now exists post].
Qed.

Lemma occursIn_cons (pat : string) (c : ascii) (s : string) :
  occursIn pat (String c s) -> Js.startsWith pat (String c s) = true \/ occursIn pat s.
Proof.
  intros [pre [post H]]. destruct pre as [|a pre]; simpl in H.
  - left. apply startsWith_app. now exists post.
  - right. injection H as _ ->. now exists pre, post.
Qed.

Lemma indexOfFrom_range (i : Z) (s pat : string) :
  (0 <= i)%Z -> Js.indexOfFrom i s pat = (-1)%Z \/ (i <= Js.indexOfFrom i s pat)%Z.
Proof.
  revert i. induction s as [|c s IH]; intros i Hi; simpl.
  - destruct (Js.startsWith pat ""); [right; lia | now left].
  - destruct (Js.startsWith pat (String c s)); [right; lia |].
    destruct (IH (i + 1)%Z ltac:(lia)) as [H | H]; [now left | right; lia].
Qed.

Lemma indexOfFrom_absent (i : Z) (s pat : string) :
  (0 <= i)%Z -> (Js.indexOfFrom i s pat = (-1)%Z <-> ~ occursIn pat s).
Proof.
  revert i. induction s as [|c s IH]; intros i Hi; simpl.
  - destruct (Js.startsWith pat "") eqn:E.
    + split; [lia |]. intros H. exfalso. apply H.
      apply startsWith_app in E as [post E]. now exists "", post.
    + split; [| reflexivity]. intros _ [pre [post H]].
      destruct pre; simpl in H; [| discriminate].
      assert (Js.startsWith pat "" = true) by (apply startsWith_app; now exists post).
      congruence.
  - destruct (Js.startsWith pat (String c s)) eqn:E.
    + split; [lia |]. intros H. exfalso. apply H.
      apply startsWith_app in E as [post E]. now exists "", post.
    + rewrite (IH (i + 1)%Z ltac:(lia)). split.
      * intros H Hocc. apply occursIn_cons in Hocc as [Hs | Hocc]; [congruence | auto].
      * intros H [pre [post Hocc]]. apply H. exists (String c pre), post.
        simpl. now rewrite Hocc.
Qed.

(** [indexOf] is [-1] exactly when the pattern does not occur. *)
Lemma indexOf_absent (s pat : string) :
  Js.indexOf s pat = (-1)%Z <-> ~ occursIn pat s.
Proof. apply indexOfFrom_absent. lia. Qed.

Lemma hasChar_app (c : ascii) (s t : string) :
  hasChar c (s ++ t) = hasChar c s || hasChar c t.
Proof. induction s as [|a s IH]; simpl; [reflexivity |]. now rewrite IH, orb_assoc. Qed.

Lemma toLowerCase_no_upper (c : ascii) (s : string) :
  Js.isUpperAZ c = true -> hasChar c (Js.toLowerCase s) = false.
Proof.
  intros Hc. induction s as [|a s IH]; simpl; [reflexivity |].
  rewrite IH, orb_false_r. destruct (Ascii.eqb_spec (Js.toLowerChar a) c) as [E |]; [| reflexivity].
  rewrite <- E, toLowerChar_not_upper in Hc. discriminate.
Qed.

(** ** Paths *)

Lemma split_no_leading_sep (s : string) :
  Forall (fun seg => Js.charAt0Is Path.sepChar seg = false) (Js.split Path.sepChar s).
Proof.
  induction s as [|c s IH]; simpl.
  - repeat constructor.
  - destruct (Ascii.eqb c Path.sepChar) eqn:E.
    + constructor; [reflexivity | exact IH].
    + destruct (Js.split Path.sepChar s) as [|h t].
      * repeat constructor. exact E.
      * inversion IH; subst. constructor; [exact E | assumption].
Qed.

Lemma Forall_removelast {A : Type} (P : A -> Prop) (l : list A) :
  Forall P l -> Forall P (List.removelast l).
Proof.
  induction 1 as [|x l Hx Hl IH]; simpl; [constructor |].
  destruct l; [constructor | constructor; assumption].
Qed.

Lemma normalizeStep_ok (allowAboveRoot : bool) (res : list string) (p : string) :
  Forall segOk res -> Js.charAt0Is Path.sepChar p = false ->
  Forall segOk (Path.normalizeStep allowAboveRoot res p).
Proof.
  intros Hres Hp. unfold Path.normalizeStep.
  assert (Hdd : segOk "..") by (split; [discriminate | reflexivity]).
  destruct (Js.isEmpty p || String.eqb p ".") eqn:E1; [exact Hres |].
  apply orb_false_iff in E1 as [E1 _].
  destruct (String.eqb p "..").
  - destruct res as [|r res'].
    + destruct allowAboveRoot; repeat constructor; apply Hdd.
    + destruct (negb (String.eqb (List.last (r :: res') "") "..")).
      * now apply Forall_removelast.
      * destruct allowAboveRoot; [| exact Hres].
        apply Forall_app. split; [exact Hres | repeat constructor; apply Hdd].
  - apply Forall_app. split; [exact Hres |]. repeat constructor; [| exact Hp].
    intros ->. discriminate.
Qed.

Lemma normalizeArray_ok (parts : list string) (allowAboveRoot : bool) :
  Forall (fun seg => Js.charAt0Is Path.sepChar seg = false) parts ->
  Forall segOk (Path.normalizeArray parts allowAboveRoot).
Proof.
  unfold Path.normalizeArray. generalize (@nil string) (@List.Forall_nil _ segOk).
  induction parts as [|p parts IH]; intros res Hres Hparts; simpl; [exact Hres |].
  inversion Hparts; subst. apply IH; [| assumption]. now apply normalizeStep_ok.
Qed.

Lemma charAt0Is_app (c : ascii) (s t : string) :
  s <> EmptyString -> Js.charAt0Is c (s ++ t) = Js.charAt0Is c s.
Proof. destruct s; [congruence | reflexivity]. Qed.

Lemma joinWith_no_leading_sep (l : list string) :
  Forall segOk l -> Js.charAt0Is Path.sepChar (Js.joinWith Path.sep l) = false.
Proof.
  intros H. destruct H as [|p l [Hne Hp] Hl]; [reflexivity |].
  destruct p as [|a p']; [congruence |]. destruct l; simpl in *; exact Hp.
Qed.

Lemma stripLeadingSep_id (s : string) :
  Js.charAt0Is Path.sepChar s = false -> ServerlessRuntimeBase.stripLeadingSep s = s.
Proof. unfold ServerlessRuntimeBase.stripLeadingSep. now intros ->. Qed.

Lemma stripLeadingSep_sep (s : string) :
  ServerlessRuntimeBase.stripLeadingSep (Path.sep ++ s) = s.
Proof. reflexivity. Qed.

(** A normalized path starts with at most one separator. *)
Lemma normalize_one_leading_sep (p : string) :
  Js.charAt0Is Path.sepChar
    (ServerlessRuntimeBase.stripLeadingSep (Path.normalize p)) = false.
Proof.
  unfold Path.normalize.
  pose proof (joinWith_no_leading_sep _
    (normalizeArray_ok _ (negb (Path.isAbsolute p)) (split_no_leading_sep p))) as Hj.
  set (j := Js.joinWith Path.sep _) in *.
  destruct (Path.isAbsolute p); simpl negb; rewrite ?andb_false_r, ?andb_true_r.
  - rewrite stripLeadingSep_sep.
    destruct (negb (Js.isEmpty j) && Path.endsWithSep p) eqn:E; [| exact Hj].
    apply andb_true_iff in E as [E _]. rewrite charAt0Is_app; [exact Hj |].
    intros ->. discriminate.
  - assert (H2 : Js.charAt0Is Path.sepChar (if Js.isEmpty j then "." else j) = false)
      by (destruct (Js.isEmpty j); [reflexivity | exact Hj]).
    assert (Hne : (if Js.isEmpty j then "." else j) <> EmptyString)
      by (destruct j; simpl; discriminate).
    set (q := if Js.isEmpty j then "." else j) in *.
    assert (H3 : Js.charAt0Is Path.sepChar
                   (if negb (Js.isEmpty q) && Path.endsWithSep p
                    then (q ++ Path.sep)%string else q) = false).
    { destruct (negb (Js.isEmpty q) && Path.endsWithSep p); [| exact H2].
      now rewrite charAt0Is_app. }
    simpl. rewrite stripLeadingSep_id; exact H3.
Qed.

Lemma join_one_leading_sep (segments : list string) :
  Js.charAt0Is Path.sepChar
    (ServerlessRuntimeBase.stripLeadingSep (Path.join segments)) = false.
Proof. apply normalize_one_leading_sep. Qed.

(** ** The exclusion matcher *)

Section Exclude.

Import ServerlessRuntimeBase.

Variable RegExp : string -> option (string -> bool).




End Exclude.



Example exclude_anchored :
  ServerlessRuntimeBase._exclude sampleRegExp sampleFunc "/tmp/dist" "dev" "us-east-1"
                                 "foo.js" "/tmp/dist/tests/unit" = Return true
  /\ ServerlessRuntimeBase._exclude sampleRegExp sampleFunc "/tmp/dist" "dev" "us-east-1"
                                    "foo.js" "/tmp/dist/src/tests/unit" = Return false.
Proof. split; reflexivity. Qed.

(** Without the hypothesis the order shows: the constructor throws on the
    first pattern that is no regular expression. *)
Example exclude_invalid_pattern :
  ServerlessRuntimeBase.some sampleRegExp "tests/foo.js" ["^tests/"; "*"] = Return true
  /\ ServerlessRuntimeBase.some sampleRegExp "tests/foo.js" ["*"; "^tests/"]
     = Throw (SyntaxError "Invalid regular expression: /*/").
Proof. split; reflexivity. Qed.

(** ** The handler check *)




(** The other branch: a handler inside the package root is copied from the
    root the handler path leaves. *)
Lemma valid_handler_copies
      (RegExp : string -> option (string -> bool))
      (copyDirSyncRecursive :
         node -> string -> string -> (string -> string -> completion bool) -> completion node)
      (func : ServerlessRuntimeBase.Func) (pathDist stage region : string) (disk : node) :
  resolvesInside func ->
  exists disk' r,
    ServerlessRuntimeBase._copyDir RegExp copyDirSyncRecursive func pathDist stage region disk
    = (disk',
       [ServerlessRuntimeBase.CopyDirSyncRecursive
          (Js.replace (ServerlessRuntimeBase.getRootPath func
                         (ServerlessRuntimeBase.handlerFileName func))
                      (ServerlessRuntimeBase.handler func) "")
          pathDist (ServerlessRuntimeBase.excludePatterns func)],
       r).
Proof.
  intros Hin. unfold ServerlessRuntimeBase._copyDir, ServerlessRuntimeBase.copyBody.
  destruct (Z.eqb_spec (Js.indexOf (ServerlessRuntimeBase.getRootPath func
                                      (ServerlessRuntimeBase.handlerFileName func))
                                   (ServerlessRuntimeBase.handler func)) (-1)) as [E | _].
  - apply indexOf_absent in E. contradiction.
  - destruct (copyDirSyncRecursive _ _ _ _); eauto.
Qed.

(** ** The include paths *)

(** X26. No lower-cased file name holds the mixed-case entry of [ignore]: the
    test that should skip the entry never fires. *)
Lemma ignored_never (file : string) : ServerlessRuntimeBase.ignored file = false.
Proof.
  unfold ServerlessRuntimeBase.ignored, ServerlessRuntimeBase.ignore. simpl.
  rewrite orb_false_r.
  assert (H : Js.indexOf (Js.toLowerCase file) ".DS_Store" = (-1)%Z).
  { apply indexOf_absent. intros [pre [post H]].
    assert (Hd : hasChar "D" (Js.toLowerCase file) = true).
    { rewrite H, !hasChar_app. simpl. now rewrite orb_true_r. }
    rewrite toLowerCase_no_upper in Hd; [discriminate | reflexivity]. }
  now rewrite H.
Qed.

(** C7. On a distribution root that holds exactly [index.js],
    [lib/helper.js] and [.DS_Store], with include paths [["."]], the
    generator resolves with three entries: [.DS_Store] is among them. *)
Theorem ds_store_not_filtered :
  ServerlessRuntimeBase._generateIncludePaths "/" dotFunc "/dist" (diskWith distEntries)
  = Return (Resolved (ServerlessRuntimeBase.CompressPaths
      [ {| ServerlessRuntimeBase.name := "index.js";
           ServerlessRuntimeBase.path := "/dist/index.js" |};
        {| ServerlessRuntimeBase.name := ".DS_Store";
           ServerlessRuntimeBase.path := "/dist/.DS_Store" |};
        {| ServerlessRuntimeBase.name := "lib/helper.js";
           ServerlessRuntimeBase.path := "/dist/lib/helper.js" |} ])).
Proof. reflexivity. Qed.

(** The same in whatever order the directory lists its three entries. *)
Lemma any_listing_order_keeps_ds_store (entries : list (string * node)) :
  Permutation distEntries entries ->
  exists l,
    ServerlessRuntimeBase._generateIncludePaths "/" dotFunc "/dist" (diskWith entries)
    = Return (Resolved (ServerlessRuntimeBase.CompressPaths l))
    /\ List.length l = 3
    /\ In {| ServerlessRuntimeBase.name := ".DS_Store";
             ServerlessRuntimeBase.path := "/dist/.DS_Store" |} l.
Proof.
  intros Hperm. apply permutations_Permutation in Hperm.
  set (orders := permutations distEntries) in Hperm.
  vm_compute in orders. subst orders.
  repeat match goal with
         | H : _ ∈ _ :: _ |- _ => apply elem_of_cons in H as [-> | H]
         | H : _ ∈ [] |- _ => apply elem_of_nil in H; contradiction
         end;
    (eexists; split; [reflexivity |]; split; [reflexivity |]; simpl; tauto).
Qed.

(** ** The default [build] *)

(** What the packaging pipeline settles with is never [undefined]. *)
Lemma spec_build_not_undefined
      (RegExp : string -> option (string -> bool))
      (copyDirSyncRecursive :
         node -> string -> string -> (string -> string -> completion bool) -> completion node)
      (cwd : string) (this : ServerlessRuntimeBase.Runtime)
      (func : ServerlessRuntimeBase.Func) (stage region time : string) (disk : node) :
  snd (ServerlessRuntimeBase.spec_build RegExp copyDirSyncRecursive cwd this func stage region
                                        time disk)
  <> Return (Resolved ServerlessRuntimeBase.Undefined).
Proof.
  unfold ServerlessRuntimeBase.spec_build, ServerlessRuntimeBase._copyDir,
    ServerlessRuntimeBase.copyBody, ServerlessRuntimeBase._afterCopyDir,
    ServerlessRuntimeBase._generateIncludePaths.
  destruct (Z.eqb _ _); [simpl; discriminate |].
  destruct (copyDirSyncRecursive _ _ _ _); simpl; [| discriminate].
  destruct (ServerlessRuntimeBase.eachIncludePath _ _ _ _ _); discriminate.
Qed.

(** C9, as the code has it.  The default [build] starts no packaging step:
    it resolves at once with [undefined], copies nothing and leaves the disk
    as it is; for no input does it settle as the packaging pipeline does. *)
Theorem build_default_is_noop
        (RegExp : string -> option (string -> bool))
        (copyDirSyncRecursive :
           node -> string -> string -> (string -> string -> completion bool) -> completion node)
        (cwd : string) (this : ServerlessRuntimeBase.Runtime)
        (func : ServerlessRuntimeBase.Func) (stage region time : string) (disk : node) :
  ServerlessRuntimeBase.build func stage region disk
  = (disk, [], Return (Resolved ServerlessRuntimeBase.Undefined))
  /\ ServerlessRuntimeBase.build func stage region disk
     <> ServerlessRuntimeBase.spec_build RegExp copyDirSyncRecursive cwd this func stage region
                                         time disk.
Proof.
  split; [reflexivity |]. intros H.
  apply (spec_build_not_undefined RegExp copyDirSyncRecursive cwd this func stage region
                                  time disk).
  now rewrite <- H.
Qed.

(** C9, as stated, fails: the default [build] of a runtime is not the
    packaging pipeline. *)
Lemma build_delegates_counterexample :
  ~ (forall (RegExp : string -> option (string -> bool))
            (copyDirSyncRecursive :
               node -> string -> string -> (string -> string -> completion bool)
               -> completion node)
            (cwd : string) (this : ServerlessRuntimeBase.Runtime)
            (func : ServerlessRuntimeBase.Func) (stage region time : string) (disk : node),
        ServerlessRuntimeBase.build func stage region disk
        = ServerlessRuntimeBase.spec_build RegExp copyDirSyncRecursive cwd this func
                                           stage region time disk).
Proof.
  intros H.
  specialize (H sampleRegExp (fun d _ _ _ => Return d) "/" sampleRuntime strayFunc
                "dev" "us-east-1" "1456790400000" (diskWith distEntries)).
  vm_compute in H. discriminate H.
Qed.

(** ** The pipeline monad *)

Lemma bind_unfold {A B : Type} (m : M A) (k : A -> M B) (p : Project) :
  bind m k p
  = match m p with
    | (p1, t1, Resolved a) => (final (k a p1), t1 ++ trace (k a p1), result (k a p1))
    | (p1, t1, Rejected e) => (p1, t1, Rejected e)
    end.
Proof.
  unfold bind. destruct (m p) as [[p1 t1] [a | e]]; [| reflexivity].
  now destruct (k a p1) as [[p2 t2] r].
Qed.

Lemma bind_resolved {A B : Type} (m : M A) (k : A -> M B) (p p' : Project)
      (t : list event) (b : B) :
  bind m k p = (p', t, Resolved b) ->
  exists p1 t1 a t2,
    m p = (p1, t1, Resolved a) /\ k a p1 = (p', t2, Resolved b) /\ t = t1 ++ t2.
Proof.
  unfold bind. destruct (m p) as [[p1 t1] [a | e]]; [| discriminate].
  destruct (k a p1) as [[p2 t2] r] eqn:E. intros H. injection H as -> <- ->.
  now exists p1, t1, a, t2.
Qed.

Lemma trace_bind {A B : Type} (m : M A) (k : A -> M B) (p : Project) :
  trace (bind m k p)
  = trace (m p) ++ match result (m p) with
                   | Resolved a => trace (k a (final (m p)))
                   | Rejected _ => []
                   end.
Proof.
  rewrite bind_unfold. destruct (m p) as [[p1 t1] [a | e]]; simpl; [reflexivity |].
  now rewrite app_nil_r.
Qed.

Section Emits.

Variable Q : event -> bool.

Lemma emits_ret {A : Type} (a : A) : emits Q (ret a).
Proof. intros p. constructor. Qed.

Lemma emits_throw {A : Type} (e : error) : emits Q (@throw A e).
Proof. intros p. constructor. Qed.

Lemma emits_get : emits Q get.
Proof. intros p. constructor. Qed.

Lemma emits_modify (f : Project -> Project) : emits Q (modify f).
Proof. intros p. constructor. Qed.

Lemma emits_discard {A : Type} (o : outcome A) : emits Q (discard o).
Proof. intros p. constructor. Qed.

Lemma emits_method (v : option string) (what : string) : emits Q (method v what).
Proof. intros p. destruct v; constructor. Qed.

Lemma emits_stringArg (v : option string) : emits Q (stringArg v).
Proof. intros p. destruct v; constructor. Qed.

Lemma emits_call (w : World) (e : event) (operation : string) :
  Q e = true -> emits Q (call w e operation).
Proof. intros H p. repeat constructor. exact H. Qed.

Lemma emits_callAll (w : World) (es : list event) (operation : string) :
  Forall (fun e => Q e = true) es -> emits Q (callAll w es operation).
Proof. intros H p. exact H. Qed.

Lemma emits_bind {A B : Type} (m : M A) (k : A -> M B) :
  emits Q m -> (forall a, emits Q (k a)) -> emits Q (bind m k).
Proof.
  intros Hm Hk p. rewrite bind_unfold. specialize (Hm p).
  destruct (m p) as [[p1 t1] [a | e]]; simpl in *; [| exact Hm].
  apply Forall_app. split; [exact Hm | apply Hk].
Qed.

Lemma emits_if {A : Type} (c : bool) (m1 m2 : M A) :
  emits Q m1 -> emits Q m2 -> emits Q (if c then m1 else m2).
Proof. now destruct c. Qed.

End Emits.

Create HintDb emits.
#[local] Hint Resolve emits_ret emits_throw emits_get emits_modify emits_discard
  emits_method emits_stringArg emits_if : emits.

Ltac emits_step :=
  first [ apply emits_bind; [| intros ?]
        | apply emits_if
        | apply emits_call; reflexivity
        | apply emits_callAll; repeat constructor
        | solve [auto with emits] ].

(** ** The stages of [create] *)

Lemma getAnswers_pure (w : World)
      (projName stage s3Bucket lambdaRegion notificationEmail awsProfile : option string)
      (p : Project) :
  exists answers,
    _getAnswers w projName stage s3Bucket lambdaRegion notificationEmail awsProfile p
    = (p, [], Resolved answers).
Proof.
  unfold _getAnswers.
  match goal with |- context [match fst ?x with _ => _ end] => destruct (fst x) end;
    eexists; reflexivity.
Qed.

Lemma prepare_emits (w : World) (answers : gmap string string) :
  emits isCredentialStore (_prepareProjectData w answers).
Proof. unfold _prepareProjectData. repeat emits_step. Qed.

Lemma directory_emits (w : World) : emits isLater (_createProjectDirectory w).
Proof. unfold _createProjectDirectory. repeat emits_step. Qed.

Lemma cfStack_emits (w : World) : emits isLater (_createCfStack w).
Proof. unfold _createCfStack. repeat emits_step. Qed.

Lemma projectJson_emits (w : World) (cfOutputs : option (list stackOutput)) :
  emits isLater (_createProjectJson w cfOutputs).
Proof. unfold _createProjectJson. repeat emits_step. Qed.

Lemma storage_run (w : World) (p : Project) :
  _createS3JawsStructure w p
  = let b := CreateBucket (awsProfile p) (region p) (s3Bucket p) in
    let f := PutEnvFile (awsProfile p) (region p) (s3Bucket p) (name p) (stage p)
                        (envFile p) in
    if succeeds w b
    then (p, [b; f],
          if succeeds w f then Resolved tt else Rejected (CollaboratorFailure "putEnvFile"))
    else (p, [b], Rejected (CollaboratorFailure "createBucket")).
Proof.
  unfold _createS3JawsStructure, bind, get, call. simpl.
  destruct (succeeds w (CreateBucket _ _ _)); [| reflexivity].
  destruct (succeeds w (PutEnvFile _ _ _ _ _ _)); reflexivity.
Qed.

Lemma afterStorage_emits (w : World) (noExeCf : bool) :
  emits isLater
        (_createProjectDirectory w ;;
         (if noExeCf then _createProjectJson w None
          else cfOutputs <- _createCfStack w ;; _createProjectJson w cfOutputs)).
Proof.
  apply emits_bind; [apply directory_emits | intros _].
  apply emits_if; [apply projectJson_emits |].
  apply emits_bind; [apply cfStack_emits | intros ?; apply projectJson_emits].
Qed.


(** ** Storage before the local files *)




(** Where the first event of kind [Q] is, in a list that starts with
    events of other kinds. *)
Lemma first_of_kind (Q : event -> bool) (l1 l2 pre post : list event) (e : event) :
  l1 ++ l2 = pre ++ e :: post ->
  Forall (fun x => Q x = false) l1 -> Q e = true ->
  exists pre', pre = l1 ++ pre' /\ l2 = pre' ++ e :: post.
Proof.
  revert pre. induction l1 as [|x l1 IH]; intros pre Heq Hl1 He.
  - now exists pre.
  - inversion Hl1 as [|? ? Hx Hl1']; subst. destruct pre as [|y pre]; simpl in Heq.
    + injection Heq as -> _. congruence.
    + injection Heq as -> Heq. destruct (IH pre Heq Hl1' He) as [pre' [-> ->]].
      now exists pre'.
Qed.




(** A run in which everything succeeds, and the run in which the bucket
    cannot be created. *)
Example create_calm_trace :
  List.map createdPath
    (trace (create calmWorld (Some "demo") (Some "dev") (Some "demo.example.com")
                   (Some "us-east-1") (Some "ops@example.com") (Some "default")
                   false emptyProject))
  = [ None; None;
      Some "/home/u/demo/back/.env"; Some "/home/u/demo/front"; Some "/home/u/demo/tests";
      Some "/home/u/demo/back/lambdas"; Some "/home/u/demo/back/lib";
      Some "/home/u/demo/admin.env"; Some "/home/u/demo/jaws-cf.json";
      None; None; Some "/home/u/demo/jaws.json" ].
Proof. reflexivity. Qed.

Example create_no_bucket_trace :
  trace (create noBucketWorld (Some "demo") (Some "dev") (Some "demo.example.com")
                (Some "us-east-1") (Some "ops@example.com") (Some "default")
                false emptyProject)
  = [ CreateBucket (Some "default") (Some "us-east-1") (Some "demo.example.com") ]
  /\ result (create noBucketWorld (Some "demo") (Some "dev") (Some "demo.example.com")
                    (Some "us-east-1") (Some "ops@example.com") (Some "default")
                    false emptyProject)
     = Rejected (CollaboratorFailure "createBucket").
Proof. split; reflexivity. Qed.

(** ** The manifest *)




Example create_calm_manifest :
  match result (create calmWorld (Some "demo") (Some "dev") (Some "demo.example.com")
                       (Some "us-east-1") (Some "ops@example.com") (Some "default")
                       false emptyProject) with
  | Resolved j =>
      map_to_list (stages (jProject j))
      = [ ("dev", [ {| dRegion := Some "us-east-1";
                       iamRoleArnLambda := "arn:aws:iam::1:role/l";
                       iamRoleArnApiGateway := "arn:aws:iam::1:role/g" |} ]) ]
      /\ envVarBucket (jProject j)
         = {| bName := Some "demo.example.com"; bRegion := Some "us-east-1" |}
  | Rejected _ => False
  end.
Proof. vm_compute. split; reflexivity. Qed.

(** ** Validation in [_prepareProjectData] *)

Section RejectsOnly.

Variable R : error -> bool.

Lemma rejects_ret {A : Type} (a : A) : rejectsOnly R (ret a).
Proof. intros p e H. discriminate H. Qed.

Lemma rejects_get : rejectsOnly R get.
Proof. intros p e H. discriminate H. Qed.

Lemma rejects_modify (f : Project -> Project) : rejectsOnly R (modify f).
Proof. intros p e H. discriminate H. Qed.

Lemma rejects_discard {A : Type} (o : outcome A) : rejectsOnly R (discard o).
Proof. intros p e H. discriminate H. Qed.

Lemma rejects_throw {A : Type} (e : error) : R e = true -> rejectsOnly R (@throw A e).
Proof. intros He p e' H. injection H as <-. exact He. Qed.

Lemma rejects_method (v : option string) (what : string) :
  (forall msg, R (TypeError msg) = true) -> rejectsOnly R (method v what).
Proof. intros HR p e H. destruct v; [discriminate H | injection H as <-; apply HR]. Qed.

Lemma rejects_call (w : World) (ev : event) (operation : string) :
  R (CollaboratorFailure operation) = true -> rejectsOnly R (call w ev operation).
Proof.
  intros HR p e H. unfold call, result in H. simpl in H.
  destruct (succeeds w ev); [discriminate H | injection H as <-; exact HR].
Qed.

Lemma rejects_bind {A B : Type} (m : M A) (k : A -> M B) :
  rejectsOnly R m -> (forall a, rejectsOnly R (k a)) -> rejectsOnly R (bind m k).
Proof.
  intros Hm Hk p e. rewrite bind_unfold. specialize (Hm p).
  destruct (m p) as [[p1 t1] [a | e1]]; simpl in *.
  - apply Hk.
  - intros H. apply Hm. injection H as <-. reflexivity.
Qed.

Lemma rejects_if {A : Type} (c : bool) (m1 m2 : M A) :
  rejectsOnly R m1 -> rejectsOnly R m2 -> rejectsOnly R (if c then m1 else m2).
Proof. now destruct c. Qed.

End RejectsOnly.

(** X25. No run of [_prepareProjectData] is rejected with a [JawsError]: the
    rejections built for a reserved stage and for a bad name are dropped,
    and the ones for missing credentials are never built. *)
Lemma prepare_never_JawsError (w : World) (answers : gmap string string) :
  rejectsOnly notJawsError (_prepareProjectData w answers).
Proof.
  unfold _prepareProjectData.
  repeat first [ apply rejects_bind; [| intros ?]
               | apply rejects_if
               | apply rejects_ret | apply rejects_modify | apply rejects_discard
               | apply rejects_method; reflexivity
               | apply rejects_throw; reflexivity
               | apply rejects_call; reflexivity ].
Qed.

(** C1. With the stage [LOCAL], [Local] or [local], and a stored profile,
    [create] is not rejected: the bucket is ensured, the environment file
    uploaded, the project tree and the manifest written. *)
Theorem reserved_stage_not_rejected :
  Forall
    (fun st =>
       let r := create calmWorld (Some "demo") (Some st) (Some "demo.example.com")
                       (Some "us-east-1") (Some "ops@example.com") (Some "default")
                       true emptyProject in
       Js.toLowerCase st = "local"
       /\ settled (result r) = true
       /\ stage (final r) = Some st
       /\ List.map createdPath (trace r)
          = [ None; None;
              Some "/home/u/demo/back/.env"; Some "/home/u/demo/front";
              Some "/home/u/demo/tests"; Some "/home/u/demo/back/lambdas";
              Some "/home/u/demo/back/lib"; Some "/home/u/demo/admin.env";
              Some "/home/u/demo/jaws-cf.json"; Some "/home/u/demo/jaws.json" ]
       /\ List.map isStorage (firstn 2 (trace r)) = [true; true])
    ["LOCAL"; "Local"; "local"].
Proof. repeat constructor; vm_compute; reflexivity. Qed.

(** What the normalization lets through: the name characters and the
    colon. *)
Lemma notKept_false (c : ascii) :
  notKept c = false ->
  (isNameChar (if Js.isWhiteSpace c then "-"%char else c)
   || Ascii.eqb (if Js.isWhiteSpace c then "-"%char else c) ":") = true.
Proof. destruct c as [[] [] [] [] [] [] [] []]; vm_compute; intros H; congruence. Qed.

Lemma forallb_take (cls : ascii -> bool) (n : nat) (s : string) :
  Js.forallb cls s = true -> Js.forallb cls (Js.take n s) = true.
Proof.
  revert n. induction s as [|c s IH]; intros [|n] H; simpl in *; try reflexivity.
  apply andb_true_iff in H as [-> H]. now apply IH.
Qed.

Lemma normalizeName_chars (s : string) :
  Js.forallb (fun c => isNameChar c || Ascii.eqb c ":") (normalizeName s) = true.
Proof.
  unfold normalizeName. apply forallb_take.
  induction (Js.trim (Js.toLowerCase s)) as [|c t IH]; simpl; [reflexivity |].
  destruct (notKept c) eqn:E; [exact IH |]. simpl.
  now rewrite (notKept_false c E), IH.
Qed.

(** C2. For the name [a:b], which the normalization leaves as it is,
    [_prepareProjectData] resolves with [project.name] holding the colon,
    and [create] builds the project under that name. *)
Theorem invalid_name_not_rejected :
  let r := create calmWorld (Some "a:b") (Some "dev") (Some "demo.example.com")
                  (Some "us-east-1") (Some "ops@example.com") (Some "default")
                  true emptyProject in
  normalizeName "a:b" = "a:b"
  /\ nameOk "a:b" = false
  /\ settled (result r) = true
  /\ name (final r) = Some "a:b"
  /\ rootPath (final r) = Some "/home/u/a:b"
  /\ List.length (trace r) = 10.
Proof. vm_compute. repeat split; reflexivity. Qed.

(** Without a profile and without one of the two keys the stage is
    rejected, with the [ReferenceError] of the unbound [reject], before the
    credential store is called. *)
Lemma prepare_missing_credentials (w : World) (answers : gmap string string)
      (p : Project) (st nm : string) :
  answers !! "stage" = Some st -> answers !! "name" = Some nm ->
  Js.truthy (answers !! "awsProfile") = false ->
  Js.truthy (answers !! "awsAdminKeyId") = false
  \/ Js.truthy (answers !! "awsAdminSecretKey") = false ->
  result (_prepareProjectData w answers p) = Rejected (ReferenceError "reject is not defined")
  /\ trace (_prepareProjectData w answers p) = [].
Proof.
  intros Hst Hnm Hprofile Hkeys. unfold _prepareProjectData.
  rewrite Hst, Hnm, Hprofile. unfold bind, method, discard, ret, modify, throw. simpl.
  destruct (String.eqb (Js.toLowerCase st) "local"); simpl;
    destruct (negb (nameOk (normalizeName nm))); simpl;
    destruct (existsSync w _); simpl;
    destruct (Js.truthy (answers !! "awsAdminKeyId")); simpl; try (split; reflexivity);
    destruct Hkeys as [Hk | Hk]; try discriminate Hk; rewrite Hk; simpl; split; reflexivity.
Qed.

(** C3. Without a profile, and without the access key id or without the
    secret key, [_prepareProjectData] is rejected with a [ReferenceError],
    not with the missing-credentials error; so is [create] when the user
    leaves the key id empty. *)
Theorem missing_credentials_reference_error :
  _prepareProjectData calmWorld answersNoKey emptyProject
  = (setName (Some "demo") emptyProject, [], Rejected (ReferenceError "reject is not defined"))
  /\ _prepareProjectData calmWorld answersNoSecret emptyProject
     = (setName (Some "demo") emptyProject, [],
        Rejected (ReferenceError "reject is not defined"))
  /\ create noCredentialsWorld (Some "demo") (Some "dev") (Some "demo.example.com")
            (Some "us-east-1") (Some "ops@example.com") None true emptyProject
     = (setName (Some "demo") emptyProject, [],
        Rejected (ReferenceError "reject is not defined")).
Proof. vm_compute. repeat split; reflexivity. Qed.

(** ** The answers *)






(** ** The name in use *)

















(* ================================================================== *)
(** * Further properties *)
(* ================================================================== *)

(** ** [_getAnswers] *)

Lemma promptOrOverride_fst (key : string) (supplied : option string)
      (acc : list string * gmap string string) :
  fst (promptOrOverride key supplied acc)
  = if Js.truthy supplied then fst acc else fst acc ++ [key].
Proof.
  unfold promptOrOverride. destruct supplied as [v|]; [| reflexivity].
  simpl. now destruct (Js.isEmpty v).
Qed.

Lemma promptOrOverride_lookup (key k : string) (supplied : option string)
      (acc : list string * gmap string string) :
  snd (promptOrOverride key supplied acc) !! k
  = if Js.truthy supplied && String.eqb key k then supplied else snd acc !! k.
Proof.
  unfold promptOrOverride. destruct supplied as [v|]; [| reflexivity].
  simpl. destruct (Js.isEmpty v); [reflexivity |]. simpl.
  destruct (String.eqb_spec key k) as [-> | Hne].
  - apply lookup_insert_eq.
  - now apply lookup_insert_ne.
Qed.

Lemma inquirer_prompt_lookup (w : World) (prompts : list string) (k : string) :
  inquirer_prompt w prompts !! k
  = if List.existsb (String.eqb k) prompts then Some (promptAnswer w k) else None.
Proof.
  unfold inquirer_prompt. induction prompts as [|q prompts IH]; simpl; [apply lookup_empty |].
  destruct (String.eqb_spec k q) as [-> | Hne]; simpl.
  - apply lookup_insert_eq.
  - rewrite lookup_insert_ne by congruence. exact IH.
Qed.

(** What the answers hold for a key, from the prompts and the overrides
    the function has gathered. *)
Lemma answers_lookup (w : World) (prompts : list string) (overrides : gmap string string)
      (k : string) :
  (match prompts with
   | _ :: _ => extend (inquirer_prompt w prompts) overrides
   | [] => overrides
   end) !! k
  = match overrides !! k with
    | Some v => Some v
    | None => if List.existsb (String.eqb k) prompts then Some (promptAnswer w k) else None
    end.
Proof.
  destruct prompts as [|q prompts].
  - simpl. now destruct (overrides !! k).
  - unfold extend. rewrite lookup_union, inquirer_prompt_lookup.
    destruct (overrides !! k); [| now destruct (List.existsb _ _)].
    now destruct (List.existsb _ _).
Qed.

Ltac getAnswers_cases :=
  rewrite ?promptOrOverride_lookup, ?promptOrOverride_fst; simpl;
  rewrite ?andb_false_r, ?andb_true_r;
  repeat match goal with
         | |- context [Js.truthy ?x] => destruct (Js.truthy x) eqn:?; simpl
         end;
  try reflexivity;
  try (match goal with |- match ?x with Some _ => _ | None => _ end = _ => destruct x end;
       simpl in *; congruence).

Lemma getAnswers_plain
        (w : World) (projName stage0 bucket0 region0 email0 profile0 : option string)
        (p : Project) :
  exists answers,
    _getAnswers w projName stage0 bucket0 region0 email0 profile0 p
    = (p, [], Resolved answers)
    /\ answers !! "name" = chosen w "name" projName
    /\ answers !! "stage" = chosen w "stage" stage0
    /\ answers !! "s3Bucket" = chosen w "s3Bucket" bucket0
    /\ answers !! "region" = chosen w "region" region0
    /\ answers !! "notificationEmail" = chosen w "notificationEmail" email0.
Proof.
  unfold _getAnswers.
  set (acc5 := promptOrOverride "notificationEmail" _ _).
  set (acc6 := if existsSync w _ then _ else _).
  exists (match fst acc6 with
          | _ :: _ => extend (inquirer_prompt w (fst acc6)) (snd acc6)
          | [] => snd acc6
          end).
  split; [now destruct (fst acc6) |].
  assert (Hsnd : forall k, String.eqb "awsProfile" k = false -> snd acc6 !! k = snd acc5 !! k).
  { intros k Hk. unfold acc6. destruct (existsSync w _); [| reflexivity].
    destruct profile0 as [a|]; [| reflexivity].
    destruct (negb (Js.isEmpty a) && _); [| reflexivity].
    simpl. apply lookup_insert_ne. intros <-. now rewrite String.eqb_refl in Hk. }
  assert (Hfst : forall k, String.eqb k "awsProfile" = false ->
                           String.eqb k "awsAdminKeyId" = false ->
                           String.eqb k "awsAdminSecretKey" = false ->
                           List.existsb (String.eqb k) (fst acc6)
                           = List.existsb (String.eqb k) (fst acc5)).
  { intros k H1 H2 H3. unfold acc6. destruct (existsSync w _).
    - destruct profile0 as [a|]; [destruct (negb (Js.isEmpty a) && _) |]; simpl;
        rewrite ?H1; reflexivity.
    - simpl. now rewrite H2, H3. }
  unfold chosen.
  repeat split; rewrite answers_lookup, Hsnd, Hfst by reflexivity; unfold acc5;
    getAnswers_cases.
Qed.

(** X1. Each of the five plain answers (name, stage, bucket, region,
    notification email) is the parameter supplied to [_getAnswers] when
    that parameter is truthy, and what the user answers to the prompt
    otherwise; the function performs no call and leaves [project] as it
    is. *)
Theorem getAnswers_supplied_or_prompted
        (w : World) (projName stage0 bucket0 region0 email0 profile0 : option string)
        (p : Project) :
  exists answers,
    _getAnswers w projName stage0 bucket0 region0 email0 profile0 p
    = (p, [], Resolved answers)
    /\ answers !! "name" = chosen w "name" projName
    /\ answers !! "stage" = chosen w "stage" stage0
    /\ answers !! "s3Bucket" = chosen w "s3Bucket" bucket0
    /\ answers !! "region" = chosen w "region" region0
    /\ answers !! "notificationEmail" = chosen w "notificationEmail" email0.
Proof.
  exact (getAnswers_plain w projName stage0 bucket0 region0 email0 profile0 p).
Qed.

(** X2. With a credentials file the answers hold a profile and no admin
    keys: the supplied profile when it is one of the stored profiles, the
    user's choice otherwise (a supplied profile that is not stored is
    dropped).  Without a credentials file the answers hold the two admin
    keys the user typed and no profile, whatever was supplied. *)
Theorem getAnswers_credentials
        (w : World) (projName stage0 bucket0 region0 email0 profile0 : option string)
        (p : Project) :
  exists answers,
    _getAnswers w projName stage0 bucket0 region0 email0 profile0 p
    = (p, [], Resolved answers)
    /\ if existsSync w (Path.join [configDir w; "credentials"])
       then answers !! "awsProfile"
            = (if knownProfile w profile0 then profile0
               else Some (promptAnswer w "awsProfile"))
            /\ answers !! "awsAdminKeyId" = None
            /\ answers !! "awsAdminSecretKey" = None
       else answers !! "awsProfile" = None
            /\ answers !! "awsAdminKeyId" = Some (promptAnswer w "awsAdminKeyId")
            /\ answers !! "awsAdminSecretKey" = Some (promptAnswer w "awsAdminSecretKey").
Proof.
  unfold _getAnswers.
  set (acc5 := promptOrOverride "notificationEmail" _ _).
  assert (H5 : forall k, String.eqb "name" k = false -> String.eqb "stage" k = false ->
                         String.eqb "s3Bucket" k = false -> String.eqb "region" k = false ->
                         String.eqb "notificationEmail" k = false ->
                         snd acc5 !! k = None
                         /\ List.existsb (String.eqb k) (fst acc5) = false).
  { intros k H1 H2 H3 H4 H5. unfold acc5.
    rewrite !promptOrOverride_lookup, !promptOrOverride_fst, H1, H2, H3, H4, H5.
    rewrite !andb_false_r. split; [apply lookup_empty |].
    rewrite (String.eqb_sym "name") in H1. rewrite (String.eqb_sym "stage") in H2.
    rewrite (String.eqb_sym "s3Bucket") in H3. rewrite (String.eqb_sym "region") in H4.
    rewrite (String.eqb_sym "notificationEmail") in H5.
    repeat match goal with
           | |- context [Js.truthy ?x] => destruct (Js.truthy x); simpl
           end;
      rewrite ?existsb_app; simpl; rewrite ?H1, ?H2, ?H3, ?H4, ?H5; reflexivity. }
  destruct (H5 "awsProfile") as [Ha1 Ha2]; try reflexivity.
  destruct (H5 "awsAdminKeyId") as [Hb1 Hb2]; try reflexivity.
  destruct (H5 "awsAdminSecretKey") as [Hc1 Hc2]; try reflexivity.
  clearbody acc5. clear H5.
  set (acc6 := if existsSync w _ then _ else _).
  exists (match fst acc6 with
          | _ :: _ => extend (inquirer_prompt w (fst acc6)) (snd acc6)
          | [] => snd acc6
          end).
  split; [now destruct (fst acc6) |].
  rewrite !answers_lookup. unfold acc6, knownProfile.
  destruct (existsSync w _);
    [destruct profile0 as [a|]; [destruct (negb (Js.isEmpty a) && _) |] |];
    cbn [fst snd List.existsb];
    rewrite ?lookup_insert_eq, ?lookup_insert_ne, ?Ha1, ?Ha2, ?Hb1, ?Hb2, ?Hc1, ?Hc2
      by discriminate;
    repeat match goal with
           | |- context [String.eqb ?a ?b] =>
               let v := eval vm_compute in (String.eqb a b) in
               change (String.eqb a b) with v
           end;
    cbn [orb]; auto.
Qed.

(** ** The normalization of the name *)

Lemma forallb_impl (P Q : ascii -> bool) (s : string) :
  (forall c, P c = true -> Q c = true) -> Js.forallb P s = true -> Js.forallb Q s = true.
Proof.
  intros H. induction s as [|c s IH]; simpl; [reflexivity |].
  intros Hs. apply andb_true_iff in Hs as [Hc Hs]. now rewrite (H c Hc), IH.
Qed.

Lemma forallb_trimStart (P : ascii -> bool) (s : string) :
  Js.forallb P s = true -> Js.forallb P (Js.trimStart s) = true.
Proof.
  induction s as [|c s IH]; simpl; [reflexivity |]. intros H.
  destruct (Js.isWhiteSpace c); [| exact H].
  apply andb_true_iff in H as [_ H]. auto.
Qed.

Lemma forallb_trimEnd (P : ascii -> bool) (s : string) :
  Js.forallb P s = true -> Js.forallb P (Js.trimEnd s) = true.
Proof.
  induction s as [|c s IH]; simpl; [reflexivity |]. intros H.
  apply andb_true_iff in H as [Hc H]. specialize (IH H).
  destruct (Js.trimEnd s); [destruct (Js.isWhiteSpace c) |]; simpl in *;
    rewrite ?Hc, ?IH; reflexivity.
Qed.

Lemma forallb_toLowerCase (s : string) :
  Js.forallb (fun c => negb (Js.isUpperAZ c)) (Js.toLowerCase s) = true.
Proof.
  induction s as [|c s IH]; simpl; [reflexivity |].
  now rewrite toLowerChar_not_upper, IH.
Qed.

Lemma kept_lower_normal (c : ascii) :
  Js.isUpperAZ c = false -> notKept c = false ->
  isNormalChar (if Js.isWhiteSpace c then "-"%char else c) = true.
Proof. destruct c as [[] [] [] [] [] [] [] []]; vm_compute; intros; congruence. Qed.

Lemma take_length (n : nat) (s : string) : String.length (Js.take n s) <= n.
Proof.
  revert s. induction n as [|n IH]; intros [|c s]; simpl; try lia.
  specialize (IH s). lia.
Qed.

Lemma normalizeName_normal (s : string) :
  String.length (normalizeName s) <= 19
  /\ Js.forallb isNormalChar (normalizeName s) = true.
Proof.
  split; [apply take_length |].
  unfold normalizeName. apply forallb_take.
  assert (H : Js.forallb (fun c => negb (Js.isUpperAZ c)) (Js.trim (Js.toLowerCase s)) = true)
    by (apply forallb_trimEnd, forallb_trimStart, forallb_toLowerCase).
  induction (Js.trim (Js.toLowerCase s)) as [|c t IH]; simpl in *; [reflexivity |].
  apply andb_true_iff in H as [Hc H]. apply negb_true_iff in Hc.
  destruct (notKept c) eqn:E; [auto |]. simpl.
  now rewrite (kept_lower_normal c Hc E), IH.
Qed.

(** X3. The normalized name has at most 19 code units, each of them a
    lower-case letter, a digit, a hyphen or a colon. *)
Theorem normalizeName_bounds (s : string) :
  String.length (normalizeName s) <= 19
  /\ Js.forallb isNormalChar (normalizeName s) = true.
Proof.
  exact (normalizeName_normal s).
Qed.

Lemma normal_char_facts (c : ascii) :
  isNormalChar c = true ->
  Js.toLowerChar c = c /\ Js.isWhiteSpace c = false /\ notKept c = false
  /\ isNameChar c = negb (Ascii.eqb c ":").
Proof. destruct c as [[] [] [] [] [] [] [] []]; vm_compute; intros; try congruence; auto. Qed.

Lemma take_all (n : nat) (s : string) : String.length s <= n -> Js.take n s = s.
Proof.
  revert s. induction n as [|n IH]; intros [|c s]; simpl; intros H; try reflexivity; try lia.
  rewrite IH; [reflexivity | lia].
Qed.

Lemma normal_fixed (t : string) :
  Js.forallb isNormalChar t = true ->
  Js.toLowerCase t = t /\ Js.trim t = t /\ Js.removeAll notKept t = t
  /\ Js.replaceAll Js.isWhiteSpace "-" t = t.
Proof.
  unfold Js.trim. induction t as [|c t IH]; simpl; [auto |]. intros H.
  apply andb_true_iff in H as [Hc H].
  destruct (normal_char_facts c Hc) as (E1 & E2 & E3 & _).
  destruct (IH H) as (I1 & I2 & I3 & I4).
  rewrite E1, E2, E3, I1, I3, I4. repeat split.
  destruct t as [|d t]; simpl in *; [now rewrite E2 |].
  apply andb_true_iff in H as [Hd _].
  destruct (normal_char_facts d Hd) as (_ & D2 & _). rewrite D2 in I2. simpl in I2.
  now rewrite I2.
Qed.

(** X4. Normalizing a normalized name changes nothing. *)
Theorem normalizeName_idempotent (s : string) :
  normalizeName (normalizeName s) = normalizeName s.
Proof.
  destruct (normalizeName_normal s) as [Hlen Hchars].
  destruct (normal_fixed _ Hchars) as (E1 & E2 & E3 & E4).
  unfold normalizeName at 1. rewrite E1, E2, E3, E4. now apply take_all.
Qed.

(** X5. The test of the normalized name against [[a-zA-Z0-9-]+] fails in
    exactly two cases: the name is empty, or it holds a colon. *)
Theorem nameOk_normalized (s : string) :
  nameOk (normalizeName s)
  = negb (Js.isEmpty (normalizeName s)) && negb (hasChar ":" (normalizeName s)).
Proof.
  unfold nameOk. f_equal.
  destruct (normalizeName_normal s) as [_ H].
  induction (normalizeName s) as [|c t IH]; simpl in *; [reflexivity |].
  apply andb_true_iff in H as [Hc H].
  destruct (normal_char_facts c Hc) as (_ & _ & _ & E). rewrite E, (IH H).
  now rewrite negb_orb.
Qed.

(** ** [_prepareProjectData] *)

Lemma prepare_run
        (w : World) (answers : gmap string string) (p : Project) (st nm em : string)
        (Hst : answers !! "stage" = Some st) (Hnm : answers !! "name" = Some nm)
        (Hem : answers !! "notificationEmail" = Some em) :
  let r := _prepareProjectData w answers p in
  let viaProfile := Js.truthy (answers !! "awsProfile") in
  let keys := Js.truthy (answers !! "awsAdminKeyId")
              && Js.truthy (answers !! "awsAdminSecretKey") in
  trace r = (if viaProfile || negb keys then [] else [defaultProfileCall answers])
  /\ result r
     = (if viaProfile then Resolved tt
        else if negb keys then Rejected (ReferenceError "reject is not defined")
        else if succeeds w (defaultProfileCall answers) then Resolved tt
        else Rejected (CollaboratorFailure "profilesSet"))
  /\ (result r = Resolved tt ->
      final r = {| name := Some (projectName w nm);
                   awsProfile := if viaProfile then answers !! "awsProfile"
                                 else Some "default";
                   stage := Some st;
                   region := answers !! "region";
                   notificationEmail := Some (Js.trim em);
                   s3Bucket := answers !! "s3Bucket";
                   rootPath := rootPath p |}).
Proof.
  unfold _prepareProjectData, projectName, defaultProfileCall.
  rewrite Hst, Hnm, Hem.
  unfold bind, method, discard, ret, modify, throw, call, final, trace, result.
  cbv beta iota zeta delta [fst snd].
  destruct (existsSync w _);
    destruct (String.eqb (Js.toLowerCase st) "local");
    destruct (negb (nameOk (normalizeName nm)));
    destruct (Js.truthy (answers !! "awsProfile"));
    destruct (Js.truthy (answers !! "awsAdminKeyId"));
    destruct (Js.truthy (answers !! "awsAdminSecretKey"));
    cbn [fst snd app negb andb orb];
    try destruct (succeeds w _);
    cbn [fst snd app];
    (split; [reflexivity |]); (split; [reflexivity |]);
    try discriminate; intros _; destruct p; reflexivity.
Qed.

(** X6. With a stage, a name and a notification email in the answers,
    [_prepareProjectData] calls the credential store only when no profile
    is chosen and both admin keys are there, and then exactly once; it
    resolves when a profile is chosen or when that call succeeds; and when
    it resolves, [project] holds the name (suffixed when in use), the
    profile (the chosen one, or [default]), the stage, region and bucket of
    the answers and the trimmed email, with [rootPath] untouched. *)
Theorem prepare_outcome
        (w : World) (answers : gmap string string) (p : Project) (st nm em : string)
        (Hst : answers !! "stage" = Some st) (Hnm : answers !! "name" = Some nm)
        (Hem : answers !! "notificationEmail" = Some em) :
  let r := _prepareProjectData w answers p in
  let viaProfile := Js.truthy (answers !! "awsProfile") in
  let keys := Js.truthy (answers !! "awsAdminKeyId")
              && Js.truthy (answers !! "awsAdminSecretKey") in
  trace r = (if viaProfile || negb keys then [] else [defaultProfileCall answers])
  /\ result r
     = (if viaProfile then Resolved tt
        else if negb keys then Rejected (ReferenceError "reject is not defined")
        else if succeeds w (defaultProfileCall answers) then Resolved tt
        else Rejected (CollaboratorFailure "profilesSet"))
  /\ (result r = Resolved tt ->
      final r = {| name := Some (projectName w nm);
                   awsProfile := if viaProfile then answers !! "awsProfile"
                                 else Some "default";
                   stage := Some st;
                   region := answers !! "region";
                   notificationEmail := Some (Js.trim em);
                   s3Bucket := answers !! "s3Bucket";
                   rootPath := rootPath p |}).
Proof.
  exact (prepare_run w answers p st nm em Hst Hnm Hem).
Qed.

Lemma prepare_outcome_witness :
  answersDemo !! "stage" = Some "dev"
  /\ answersDemo !! "name" = Some "demo"
  /\ answersDemo !! "notificationEmail" = Some "ops@example.com"
  /\ let r := _prepareProjectData calmWorld answersDemo emptyProject in
     let viaProfile := Js.truthy (answersDemo !! "awsProfile") in
     let keys := Js.truthy (answersDemo !! "awsAdminKeyId")
                 && Js.truthy (answersDemo !! "awsAdminSecretKey") in
     trace r = (if viaProfile || negb keys then [] else [defaultProfileCall answersDemo])
     /\ result r
        = (if viaProfile then Resolved tt
           else if negb keys then Rejected (ReferenceError "reject is not defined")
           else if succeeds calmWorld (defaultProfileCall answersDemo) then Resolved tt
           else Rejected (CollaboratorFailure "profilesSet"))
     /\ (result r = Resolved tt ->
         final r = {| name := Some (projectName calmWorld "demo");
                      awsProfile := if viaProfile then answersDemo !! "awsProfile"
                                    else Some "default";
                      stage := Some "dev";
                      region := answersDemo !! "region";
                      notificationEmail := Some (Js.trim "ops@example.com");
                      s3Bucket := answersDemo !! "s3Bucket";
                      rootPath := rootPath emptyProject |}).
Proof.
  refine ((fun H1 H2 H3 => conj H1 (conj H2 (conj H3
            (prepare_outcome calmWorld answersDemo emptyProject "dev" "demo"
                             "ops@example.com" H1 H2 H3)))) _ _ _);
    vm_compute; reflexivity.
Defined.

(** X7. Answers without a stage, or without a name, are rejected with a
    [TypeError] before anything is called and with [project] left as it
    was. *)
Theorem prepare_missing_answer
        (w : World) (answers : gmap string string) (p : Project)
        (Hmissing : answers !! "stage" = None \/ answers !! "name" = None) :
  exists message,
    _prepareProjectData w answers p = (p, [], Rejected (TypeError message)).
Proof.
  unfold _prepareProjectData, bind, method, discard, ret, modify, throw.
  destruct (answers !! "stage") as [st|]; [| eexists; reflexivity].
  destruct Hmissing as [H | H]; [discriminate H |]. rewrite H.
  destruct (String.eqb (Js.toLowerCase st) "local"); eexists; reflexivity.
Qed.

Lemma prepare_missing_answer_witness :
  ((∅ : gmap string string) !! "stage" = None \/ (∅ : gmap string string) !! "name" = None)
  /\ exists message,
      _prepareProjectData calmWorld ∅ emptyProject
      = (emptyProject, [], Rejected (TypeError message)).
Proof.
  refine ((fun H => conj H (prepare_missing_answer calmWorld ∅ emptyProject H)) _).
  left. reflexivity.
Defined.

(** ** Pre- and postconditions of the stages *)

Lemma hoare_bind {A B : Type} (I : Project -> Prop) (m : M A) (k : A -> M B)
      (R : error -> bool) (J : A -> Project -> Prop) (K : B -> Project -> Prop) :
  hoare I m R J -> (forall a, hoare (J a) (k a) R K) -> hoare I (bind m k) R K.
Proof.
  intros Hm Hk p Hp. unfold bind. specialize (Hm p Hp).
  destruct (m p) as [[p1 t1] [a | e]]; [| exact Hm].
  specialize (Hk a p1 Hm). now destruct (k a p1) as [[p2 t2] [b | e]].
Qed.

Lemma hoare_weaken {A : Type} (I I' : Project -> Prop) (m : M A) (R : error -> bool)
      (J J' : A -> Project -> Prop) :
  hoare I m R J -> (forall p, I' p -> I p) -> (forall a p, J a p -> J' a p) ->
  hoare I' m R J'.
Proof.
  intros H HI HJ p Hp. specialize (H p (HI p Hp)).
  destruct (m p) as [[p1 t1] [a | e]]; auto.
Qed.

Lemma hoare_call (w : World) (I : Project -> Prop) (ev : event) (operation : string) :
  hoare I (call w ev operation) expectedFailure (fun _ p => I p).
Proof. intros p Hp. unfold call. now destruct (succeeds w ev). Qed.

Lemma storage_hoare (w : World) (I : Project -> Prop) :
  hoare I (_createS3JawsStructure w) expectedFailure (fun _ p => I p).
Proof.
  intros p Hp. rewrite storage_run. cbv zeta.
  destruct (succeeds w (CreateBucket _ _ _)); [| reflexivity].
  now destruct (succeeds w (PutEnvFile _ _ _ _ _ _)).
Qed.

Lemma directory_hoare (w : World) :
  hoare (fun p => is_Some (name p)) (_createProjectDirectory w) expectedFailure
        (fun _ p => is_Some (rootPath p)).
Proof.
  intros p [n Hn]. unfold _createProjectDirectory, bind, get, stringArg, modify, call,
    callAll, ret, throw. destruct p as [pn pr st rg em bk rt]. simpl in Hn. subst pn. simpl.
  repeat match goal with
         | |- context [succeeds ?w ?e] => destruct (succeeds w e); simpl
         end; eauto.
Qed.

Lemma cfStack_hoare (w : World) (I : Project -> Prop) :
  hoare I (_createCfStack w) expectedFailure (fun cf p => I p /\ cf = monitorResult w).
Proof.
  intros p Hp. unfold _createCfStack, bind, get, call, ret. simpl.
  destruct (succeeds w _); simpl; [| reflexivity].
  destruct (succeeds w _); simpl; auto.
Qed.

Lemma projectJson_hoare (w : World) (cfOutputs : option (list stackOutput)) :
  hoare (fun p => is_Some (rootPath p)) (_createProjectJson w cfOutputs) expectedFailure
        (fun _ _ => True).
Proof.
  intros p [root Hroot]. unfold _createProjectJson, bind, get, stringArg, call, ret, throw.
  destruct p as [pn pr st rg em bk rt]. simpl in Hroot. subst rt. simpl.
  now destruct (succeeds w _).
Qed.

Lemma chosen_is_Some (w : World) (key : string) (supplied : option string) :
  is_Some (chosen w key supplied).
Proof.
  unfold chosen. destruct supplied as [v|]; simpl; [destruct (Js.isEmpty v) |]; simpl; eauto.
Qed.

Lemma prepare_hoare (w : World) (answers : gmap string string) :
  is_Some (answers !! "stage") -> is_Some (answers !! "name") ->
  is_Some (answers !! "notificationEmail") ->
  hoare (fun _ => True) (_prepareProjectData w answers) expectedFailure
        (fun _ p => is_Some (name p)).
Proof.
  intros [st Hst] [nm Hnm] [em Hem] p _.
  destruct (prepare_run w answers p st nm em Hst Hnm Hem) as (_ & Hres & Hfin).
  destruct (_prepareProjectData w answers p) as [[p1 t1] [[] | e]];
    cbn [result final fst snd] in *.
  - rewrite (Hfin eq_refl). simpl. eauto.
  - destruct (Js.truthy (answers !! "awsProfile")); [discriminate Hres |].
    destruct (negb _); [injection Hres as ->; reflexivity |].
    destruct (succeeds w _); [discriminate Hres | injection Hres as ->; reflexivity].
Qed.

(** X8. A run of [create] that is rejected ends with the [ReferenceError] of
    the unbound [reject] or with the failure of a collaborator call: the
    answers always hold what the stages read, so no [TypeError] and no
    [JawsError] comes out. *)
Theorem create_failures
        (w : World) (projName stage0 bucket0 region0 email0 profile0 : option string)
        (noExeCf : bool) (p0 : Project) (e : error)
        (Hrejected : result (create w projName stage0 bucket0 region0 email0 profile0
                                    noExeCf p0) = Rejected e) :
  e = ReferenceError "reject is not defined" \/ exists operation, e = CollaboratorFailure operation.
Proof.
  assert (H : hoare (fun _ => True)
                    (create w projName stage0 bucket0 region0 email0 profile0 noExeCf)
                    expectedFailure (fun _ _ => True)).
  { unfold create. intros p _. unfold bind at 1.
    destruct (getAnswers_plain w projName stage0 bucket0 region0 email0 profile0 p)
      as (answers & -> & Hn & Hs & _ & _ & He).
    assert (Hk : hoare (fun _ => True)
                   (_prepareProjectData w answers ;;
                    _createS3JawsStructure w ;;
                    _createProjectDirectory w ;;
                    (if noExeCf then _createProjectJson w None
                     else cfOutputs <- _createCfStack w ;; _createProjectJson w cfOutputs))
                   expectedFailure (fun _ _ => True)).
    { eapply hoare_bind; [apply prepare_hoare; rewrite ?Hn, ?Hs, ?He; apply chosen_is_Some |].
      intros ?. eapply hoare_bind; [apply storage_hoare |].
      intros ?. eapply hoare_bind; [apply directory_hoare |].
      intros ?. destruct noExeCf; [apply projectJson_hoare |].
      eapply hoare_bind; [apply cfStack_hoare |].
      intros cf. eapply hoare_weaken; [apply projectJson_hoare | | auto].
      intros q [Hq _]. exact Hq. }
    specialize (Hk p I).
    match goal with |- context [?m p] => destruct (m p) as [[p1 t1] [j | e1]] end; auto. }
  specialize (H p0 I).
  destruct (create w projName stage0 bucket0 region0 email0 profile0 noExeCf p0)
    as [[p1 t1] [j | e1]]; [discriminate Hrejected |].
  cbn [result snd] in Hrejected. injection Hrejected as ->.
  destruct e; try discriminate H; [| eauto].
  left. apply String.eqb_eq in H. now subst.
Qed.

Lemma create_failures_witness :
  result (create noBucketWorld (Some "demo") (Some "dev") (Some "demo.example.com")
                 (Some "us-east-1") (Some "ops@example.com") (Some "default")
                 false emptyProject) = Rejected (CollaboratorFailure "createBucket")
  /\ (CollaboratorFailure "createBucket" = ReferenceError "reject is not defined"
      \/ exists operation, CollaboratorFailure "createBucket" = CollaboratorFailure operation).
Proof.
  refine ((fun H => conj H (create_failures noBucketWorld (Some "demo") (Some "dev")
                              (Some "demo.example.com") (Some "us-east-1")
                              (Some "ops@example.com") (Some "default") false
                              emptyProject _ H)) _).
  vm_compute. reflexivity.
Defined.

(** ** Failed calls and rejections *)

Section Faithful.

Variable w : World.

Lemma faithful_pure {A : Type} (m : M A) :
  (forall p, trace (m p) = []) ->
  (forall p operation, result (m p) <> Rejected (CollaboratorFailure operation)) ->
  faithful w m.
Proof.
  intros Ht Hr p. rewrite Ht. specialize (Hr p).
  destruct (result (m p)) as [a | []]; try constructor. now contradiction (Hr operation).
Qed.

Lemma faithful_ret {A : Type} (a : A) : faithful w (ret a).
Proof. apply faithful_pure; [reflexivity | discriminate]. Qed.

Lemma faithful_get : faithful w get.
Proof. apply faithful_pure; [reflexivity | discriminate]. Qed.

Lemma faithful_modify (f : Project -> Project) : faithful w (modify f).
Proof. apply faithful_pure; [reflexivity | discriminate]. Qed.

Lemma faithful_discard {A : Type} (o : outcome A) : faithful w (discard o).
Proof. apply faithful_pure; [reflexivity | discriminate]. Qed.

Lemma faithful_throw {A : Type} (e : error) :
  (forall operation, e <> CollaboratorFailure operation) -> faithful w (@throw A e).
Proof.
  intros He. apply faithful_pure; [reflexivity |]. intros p operation H.
  injection H as H. now apply (He operation).
Qed.

Lemma faithful_method (v : option string) (what : string) : faithful w (method v what).
Proof. destruct v; apply faithful_pure; try reflexivity; discriminate. Qed.

Lemma faithful_stringArg (v : option string) : faithful w (stringArg v).
Proof. destruct v; apply faithful_pure; try reflexivity; discriminate. Qed.

Lemma faithful_call (ev : event) (operation : string) : faithful w (call w ev operation).
Proof.
  intros p. unfold call, result, trace. simpl.
  destruct (succeeds w ev) eqn:E; repeat constructor; exact E.
Qed.

Lemma faithful_callAll (es : list event) (operation : string) :
  faithful w (callAll w es operation).
Proof.
  intros p. unfold callAll, result, trace. simpl.
  destruct (List.forallb (succeeds w) es) eqn:E.
  - apply List.Forall_forall. intros e He.
    rewrite List.forallb_forall in E. now apply E.
  - apply List.Exists_exists. induction es as [|e es IH]; simpl in E; [discriminate |].
    destruct (succeeds w e) eqn:Ee; simpl in E.
    + destruct (IH E) as (x & Hx & Hf). exists x. split; [now right | exact Hf].
    + exists e. split; [now left | exact Ee].
Qed.

Lemma faithful_bind {A B : Type} (m : M A) (k : A -> M B) :
  faithful w m -> (forall a, faithful w (k a)) -> faithful w (bind m k).
Proof.
  intros Hm Hk p. rewrite bind_unfold. specialize (Hm p).
  destruct (m p) as [[p1 t1] [a | e]]; cbn [result trace fst snd] in *.
  - specialize (Hk a p1).
    destruct (result (k a p1)) as [b | []];
      try (apply Forall_app; now split).
    apply List.Exists_app. now right.
  - exact Hm.
Qed.

Lemma faithful_if {A : Type} (c : bool) (m1 m2 : M A) :
  faithful w m1 -> faithful w m2 -> faithful w (if c then m1 else m2).
Proof. now destruct c. Qed.

Lemma faithful_getAnswers
      (projName stage0 bucket0 region0 email0 profile0 : option string) :
  faithful w (_getAnswers w projName stage0 bucket0 region0 email0 profile0).
Proof.
  apply faithful_pure; intros p;
    destruct (getAnswers_pure w projName stage0 bucket0 region0 email0 profile0 p)
    as [answers ->]; [reflexivity | discriminate].
Qed.

Lemma faithful_create
      (projName stage0 bucket0 region0 email0 profile0 : option string) (noExeCf : bool) :
  faithful w (create w projName stage0 bucket0 region0 email0 profile0 noExeCf).
Proof.
  unfold create, _prepareProjectData, _createS3JawsStructure, _createProjectDirectory,
    _createCfStack, _createProjectJson.
  repeat first [ apply faithful_bind; [| intros ?]
               | apply faithful_if
               | apply faithful_getAnswers
               | apply faithful_ret | apply faithful_get | apply faithful_modify
               | apply faithful_discard | apply faithful_method | apply faithful_stringArg
               | apply faithful_call | apply faithful_callAll
               | apply faithful_throw; discriminate ].
Qed.

End Faithful.

(** X9. A run of [create] is rejected with a collaborator failure exactly
    when one of the calls it made has failed; a run that resolves has made
    only calls that succeeded. *)
Theorem create_failed_call
        (w : World) (projName stage0 bucket0 region0 email0 profile0 : option string)
        (noExeCf : bool) (p0 : Project) :
  let r := create w projName stage0 bucket0 region0 email0 profile0 noExeCf p0 in
  (exists e, In e (trace r) /\ succeeds w e = false)
  <-> exists operation, result r = Rejected (CollaboratorFailure operation).
Proof.
  intros r.
  pose proof (faithful_create w projName stage0 bucket0 region0 email0 profile0 noExeCf p0)
    as H. fold r in H.
  split.
  - intros (e & Hin & Hf).
    destruct (result r) as [j | []]; try (rewrite List.Forall_forall in H;
                                          apply H in Hin; congruence).
    eauto.
  - intros [operation Hr]. rewrite Hr in H. now apply List.Exists_exists.
Qed.

(** ** The stack outputs and the manifest *)

(** X10. The loop over the stack outputs keeps, for a key, the value of the
    last output that has the key, and nothing when no output has it. *)
Theorem lookupOutput_last (key : string) (cfOutputs : list stackOutput) :
  lookupOutput key cfOutputs
  = option_map OutputValue
               (List.find (fun o => String.eqb (OutputKey o) key) (List.rev cfOutputs)).
Proof.
  unfold lookupOutput. induction cfOutputs as [|o os IH] using rev_ind; [reflexivity |].
  rewrite fold_left_app, rev_app_distr. simpl.
  destruct (String.eqb (OutputKey o) key); [reflexivity | exact IH].
Qed.

Lemma storage_resolved (w : World) (p p' : Project) (t : list event) :
  _createS3JawsStructure w p = (p', t, Resolved tt) ->
  p' = p
  /\ t = [ CreateBucket (awsProfile p) (region p) (s3Bucket p);
           PutEnvFile (awsProfile p) (region p) (s3Bucket p) (name p) (stage p) (envFile p) ].
Proof.
  rewrite storage_run. cbv zeta.
  destruct (succeeds w (CreateBucket _ _ _)); [| discriminate].
  destruct (succeeds w (PutEnvFile _ _ _ _ _ _)); [| discriminate].
  intros H. injection H as <- <-. auto.
Qed.

Lemma directory_resolved (w : World) (p p' : Project) (t : list event) :
  _createProjectDirectory w p = (p', t, Resolved tt) ->
  exists n,
    name p = Some n
    /\ p' = setRootPath (Some (Path.resolve (cwd w) (Path.join [Path.dirname "."; n]))) p.
Proof.
  unfold _createProjectDirectory, bind, get, stringArg, modify, call, callAll, ret, throw.
  destruct p as [pn pr st rg em bk rt]. destruct pn as [n|]; simpl; [| discriminate].
  repeat match goal with
         | |- context [succeeds ?w ?e] => destruct (succeeds w e); simpl
         end; try discriminate;
    intros H; injection H as <- _; eauto.
Qed.

Lemma cfStack_resolved (w : World) (p p' : Project) (t : list event)
      (cfOutputs : option (list stackOutput)) :
  _createCfStack w p = (p', t, Resolved cfOutputs) ->
  p' = p /\ cfOutputs = monitorResult w
  /\ t = [ CfCreateStack (awsProfile p) (region p) (rootPath p) (name p) (stage p)
                         (notificationEmail p);
           MonitorCfCreate (awsProfile p) (region p) ].
Proof.
  unfold _createCfStack, bind, get, call, ret. simpl.
  destruct (succeeds w _); simpl; [| discriminate].
  destruct (succeeds w _); simpl; [| discriminate].
  intros H. injection H as <- <- <-. auto.
Qed.

Lemma projectJson_resolved (w : World) (cfOutputs : option (list stackOutput))
      (p p' : Project) (t : list event) (j : jawsJson) :
  _createProjectJson w cfOutputs p = (p', t, Resolved j) ->
  p' = p
  /\ described p cfOutputs j
  /\ exists root,
      rootPath p = Some root
      /\ t = [ WriteFileSync (Path.join [root; "jaws.json"]) (ManifestJson j) ].
Proof.
  unfold _createProjectJson.
  cbv beta iota zeta delta [bind get stringArg call ret throw fst snd].
  destruct (rootPath p) as [root|] eqn:Hroot; [| discriminate].
  destruct (succeeds w _); [| discriminate].
  intros H. injection H as <- <- <-.
  split; [reflexivity |]. split; [| eauto].
  unfold described, roleOutput. cbn [jName jProject stages envVarBucket].
  rewrite insert_empty, alter_singleton_eq. cbn [app].
  destruct cfOutputs; auto.
Qed.

Lemma chosen_truthy_Some (w : World) (key : string) (supplied : option string) :
  exists v, chosen w key supplied = Some v.
Proof. destruct (chosen_is_Some w key supplied) as [v H]. eauto. Qed.

(** What a run of [create] that resolves has gone through. *)
Lemma create_resolved
      (w : World) (projName stage0 bucket0 region0 email0 profile0 : option string)
      (noExeCf : bool) (p0 p' : Project) (t : list event) (j : jawsJson) :
  create w projName stage0 bucket0 region0 email0 profile0 noExeCf p0 = (p', t, Resolved j) ->
  exists nm em before,
    chosen w "name" projName = Some nm
    /\ chosen w "notificationEmail" email0 = Some em
    /\ name p' = Some (projectName w nm)
    /\ stage p' = chosen w "stage" stage0
    /\ region p' = chosen w "region" region0
    /\ s3Bucket p' = chosen w "s3Bucket" bucket0
    /\ notificationEmail p' = Some (Js.trim em)
    /\ rootPath p'
       = Some (Path.resolve (cwd w) (Path.join [Path.dirname "."; projectName w nm]))
    /\ described p' (if noExeCf then None else monitorResult w) j
    /\ t = before
           ++ [ WriteFileSync
                  (Path.join [Path.resolve (cwd w)
                                (Path.join [Path.dirname "."; projectName w nm]);
                              "jaws.json"])
                  (ManifestJson j) ].
Proof.
  unfold create. intros E.
  apply bind_resolved in E as (p1 & t1 & answers & t2 & Ha & E & ->).
  destruct (getAnswers_plain w projName stage0 bucket0 region0 email0 profile0 p0)
    as (answers' & Ha' & Hn & Hs & Hb & Hr & He).
  rewrite Ha in Ha'. injection Ha' as -> -> ->. clear Ha.
  destruct (chosen_truthy_Some w "name" projName) as [nm Hnm].
  destruct (chosen_truthy_Some w "stage" stage0) as [st Hst].
  destruct (chosen_truthy_Some w "notificationEmail" email0) as [em Hem].
  rewrite Hnm in Hn. rewrite Hst in Hs. rewrite Hem in He.
  apply bind_resolved in E as (p2 & t3 & [] & t4 & Hp & E & ->).
  destruct (prepare_run w answers' p0 st nm em Hs Hn He) as (_ & _ & Hfin).
  rewrite Hp in Hfin. cbn [result final fst snd] in Hfin. specialize (Hfin eq_refl).
  apply bind_resolved in E as (p3 & t5 & [] & t6 & Hs3 & E & ->).
  apply storage_resolved in Hs3 as [-> _].
  apply bind_resolved in E as (p4 & t7 & [] & t8 & Hd & E & ->).
  apply directory_resolved in Hd as (n & Hn2 & ->).
  rewrite Hfin in Hn2. cbn [name] in Hn2. injection Hn2 as <-.
  assert (Hjson : forall cf tj,
             _createProjectJson w cf
               (setRootPath (Some (Path.resolve (cwd w)
                                     (Path.join [Path.dirname "."; projectName w nm]))) p2)
             = (p', tj, Resolved j) ->
             p' = setRootPath (Some (Path.resolve (cwd w)
                                       (Path.join [Path.dirname "."; projectName w nm]))) p2
             /\ described p' cf j
             /\ tj = [ WriteFileSync
                         (Path.join [Path.resolve (cwd w)
                                       (Path.join [Path.dirname "."; projectName w nm]);
                                     "jaws.json"])
                         (ManifestJson j) ]).
  { intros cf tj Hj. apply projectJson_resolved in Hj as (-> & Hd & root & Hroot & ->).
    cbn [setRootPath rootPath] in Hroot. injection Hroot as <-. auto. }
  assert (Hend : exists tmid,
             p' = setRootPath (Some (Path.resolve (cwd w)
                                       (Path.join [Path.dirname "."; projectName w nm]))) p2
             /\ described p' (if noExeCf then None else monitorResult w) j
             /\ t8 = tmid
                     ++ [ WriteFileSync
                            (Path.join [Path.resolve (cwd w)
                                          (Path.join [Path.dirname "."; projectName w nm]);
                                        "jaws.json"])
                            (ManifestJson j) ]).
  { destruct noExeCf.
    - apply Hjson in E as (-> & Hd & ->). exists []. auto.
    - apply bind_resolved in E as (p5 & t9 & cf & t10 & Hcf & E & ->).
      apply cfStack_resolved in Hcf as (-> & -> & _).
      apply Hjson in E as (-> & Hd & ->). exists t9. auto. }
  destruct Hend as (tmid & -> & Hd & ->).
  exists nm, em, (t3 ++ t5 ++ t7 ++ tmid).
  rewrite Hfin. cbn [setRootPath name stage region s3Bucket notificationEmail rootPath].
  rewrite Hfin in Hd. rewrite Hb, Hr in Hd |- *. rewrite Hst.
  repeat split; auto; try apply Hd. now rewrite <- !app_assoc.
Qed.



(** X12. The last call of a run of [create] that resolves writes the
    manifest the run resolves with, to [jaws.json] under [project.rootPath],
    which is the project name resolved against the working directory. *)
Theorem create_writes_manifest_last
        (w : World) (projName stage0 bucket0 region0 email0 profile0 : option string)
        (noExeCf : bool) (p0 : Project) (j : jawsJson)
        (Hrun : result (create w projName stage0 bucket0 region0 email0 profile0 noExeCf p0)
                = Resolved j) :
  let r := create w projName stage0 bucket0 region0 email0 profile0 noExeCf p0 in
  exists nm root before,
    chosen w "name" projName = Some nm
    /\ root = Path.resolve (cwd w) (Path.join [Path.dirname "."; projectName w nm])
    /\ rootPath (final r) = Some root
    /\ trace r = before ++ [ WriteFileSync (Path.join [root; "jaws.json"]) (ManifestJson j) ].
Proof.
  intros r. subst r.
  destruct (create w projName stage0 bucket0 region0 email0 profile0 noExeCf p0)
    as [[p' t] r] eqn:E.
  cbn [result snd] in Hrun. subst r.
  apply create_resolved in E
    as (nm & em & before & Hnm & _ & _ & _ & _ & _ & _ & Hroot & _ & Ht).
  exists nm, (Path.resolve (cwd w) (Path.join [Path.dirname "."; projectName w nm])), before.
  auto.
Qed.

Lemma create_writes_manifest_last_witness :
  exists j,
    result (create calmWorld (Some "demo") (Some "dev") (Some "demo.example.com")
                   (Some "us-east-1") (Some "ops@example.com") (Some "default")
                   true emptyProject) = Resolved j
    /\ let r := create calmWorld (Some "demo") (Some "dev") (Some "demo.example.com")
                       (Some "us-east-1") (Some "ops@example.com") (Some "default")
                       true emptyProject in
       exists nm root before,
         chosen calmWorld "name" (Some "demo") = Some nm
         /\ root = Path.resolve (cwd calmWorld)
                                (Path.join [Path.dirname "."; projectName calmWorld nm])
         /\ rootPath (final r) = Some root
         /\ trace r
            = before ++ [ WriteFileSync (Path.join [root; "jaws.json"]) (ManifestJson j) ].
Proof.
  eexists.
  refine ((fun H => conj H (create_writes_manifest_last calmWorld (Some "demo") (Some "dev")
                              (Some "demo.example.com") (Some "us-east-1")
                              (Some "ops@example.com") (Some "default") true
                              emptyProject _ H)) _).
  vm_compute. reflexivity.
Defined.

Lemma getAnswers_emits (Q : event -> bool) (w : World)
      (projName stage0 bucket0 region0 email0 profile0 : option string) :
  emits Q (_getAnswers w projName stage0 bucket0 region0 email0 profile0).
Proof.
  intros p.
  destruct (getAnswers_pure w projName stage0 bucket0 region0 email0 profile0 p)
    as [answers ->]. constructor.
Qed.

(** X13. With [noExeCf] no run of [create] calls the stack service, and the
    deployment record of a manifest it resolves with has empty role
    ARNs. *)
Theorem create_without_stack
        (w : World) (projName stage0 bucket0 region0 email0 profile0 : option string)
        (p0 : Project) :
  let r := create w projName stage0 bucket0 region0 email0 profile0 true p0 in
  Forall (fun e => isStack e = false) (trace r)
  /\ forall j st ds d,
      result r = Resolved j -> stages (jProject j) !! st = Some ds -> In d ds ->
      iamRoleArnLambda d = "" /\ iamRoleArnApiGateway d = "".
Proof.
  intros r. split.
  - assert (H : emits (fun e => negb (isStack e))
                      (create w projName stage0 bucket0 region0 email0 profile0 true)).
    { unfold create. cbv iota.
      unfold _prepareProjectData, _createS3JawsStructure, _createProjectDirectory,
        _createProjectJson.
      apply emits_bind; [apply getAnswers_emits | intros ?].
      repeat emits_step. }
    eapply List.Forall_impl; [| exact (H p0)]. intros e He. now apply negb_true_iff.
  - intros j st ds d Hrun Hst Hin.
    subst r.
    destruct (create w projName stage0 bucket0 region0 email0 profile0 true p0)
      as [[p' t] r] eqn:E.
    cbn [result snd] in Hrun. subst r.
    apply create_resolved in E
      as (nm & em & before & _ & _ & _ & _ & _ & _ & _ & _ & (_ & Hstages & _) & _).
    rewrite Hstages in Hst. apply lookup_singleton_Some in Hst as [_ <-].
    destruct Hin as [<- | []]. split; reflexivity.
Qed.

(** ** The scaffold *)

Lemma directory_run (w : World) (p : Project) (n : string) :
  name p = Some n ->
  _createProjectDirectory w p
  = (setRootPath (Some (rootOf w n)) p,
     if succeeds w (envWrite (rootOf w n) p)
     then envWrite (rootOf w n) p :: scaffoldGroup (rootOf w n) p
     else [envWrite (rootOf w n) p],
     if succeeds w (envWrite (rootOf w n) p)
     then if List.forallb (succeeds w) (scaffoldGroup (rootOf w n) p)
          then Resolved tt else Rejected (CollaboratorFailure "Promise.all")
     else Rejected (CollaboratorFailure "writeFile")).
Proof.
  intros Hn. unfold _createProjectDirectory.
  cbv beta iota zeta delta [bind get stringArg modify call callAll ret throw fst snd].
  rewrite Hn. cbv beta iota zeta delta [fst snd rootPath setRootPath].
  change (envFile (setRootPath (Some (rootOf w n)) p)) with (envFile p).
  fold (rootOf w n). unfold envWrite, scaffoldGroup.
  destruct (succeeds w _); [| reflexivity].
  cbn [app name stage awsProfile notificationEmail setRootPath].
  reflexivity.
Qed.

(** X14. The scaffold of a named project first sets [rootPath], then writes
    [back/.env]: when that write fails nothing else is attempted; when it
    succeeds the four directories and the two files are all attempted,
    whichever of them fail, and the stage resolves exactly when all six
    succeed. *)
Theorem scaffold_all_or_first
        (w : World) (p : Project) (n : string) (Hn : name p = Some n) :
  let r := _createProjectDirectory w p in
  let root := rootOf w n in
  rootPath (final r) = Some root
  /\ (succeeds w (envWrite root p) = false ->
      trace r = [envWrite root p] /\ result r = Rejected (CollaboratorFailure "writeFile"))
  /\ (succeeds w (envWrite root p) = true ->
      trace r = envWrite root p :: scaffoldGroup root p
      /\ (result r = Resolved tt <->
          Forall (fun e => succeeds w e = true) (scaffoldGroup root p))).
Proof.
  intros r root. subst r root. rewrite (directory_run w p n Hn).
  cbn [final trace result fst snd]. split; [reflexivity |].
  split; intros ->; (split; [reflexivity |]); [reflexivity |].
  destruct (List.forallb _ _) eqn:E.
  - split; [| reflexivity]. intros _. apply List.Forall_forall.
    rewrite List.forallb_forall in E. exact E.
  - split; [discriminate |]. intros H. rewrite List.Forall_forall in H.
    apply List.forallb_forall in H. congruence.
Qed.

Lemma scaffold_all_or_first_witness :
  name demoProject = Some "demo"
  /\ let r := _createProjectDirectory noBucketWorld demoProject in
     let root := rootOf noBucketWorld "demo" in
     rootPath (final r) = Some root
     /\ (succeeds noBucketWorld (envWrite root demoProject) = false ->
         trace r = [envWrite root demoProject]
         /\ result r = Rejected (CollaboratorFailure "writeFile"))
     /\ (succeeds noBucketWorld (envWrite root demoProject) = true ->
         trace r = envWrite root demoProject :: scaffoldGroup root demoProject
         /\ (result r = Resolved tt <->
             Forall (fun e => succeeds noBucketWorld e = true)
                    (scaffoldGroup root demoProject))).
Proof.
  split; [reflexivity |].
  exact (scaffold_all_or_first noBucketWorld demoProject "demo" eq_refl).
Defined.

Lemma putEnvFile_not_credential (e : event) :
  isCredentialStore e = true -> isPutEnvFile e = false.
Proof. destruct e; simpl; intros; try discriminate; auto. Qed.

Lemma putEnvFile_not_later (e : event) : isLater e = true -> isPutEnvFile e = false.
Proof. destruct e; simpl; intros; try discriminate; auto. Qed.

(** X15. In every run of [create], the call that follows the upload of the
    stage environment file is the write of [back/.env] under the project
    root, with the very contents that were uploaded. *)
Theorem env_file_uploaded_then_written
        (w : World) (projName stage0 bucket0 region0 email0 profile0 : option string)
        (noExeCf : bool) (p0 : Project)
        (profile region1 bucket name1 stage1 : option string) (contents : string)
        (before after : list event) (next : event)
        (Htrace : trace (create w projName stage0 bucket0 region0 email0 profile0 noExeCf p0)
                  = before
                    ++ PutEnvFile profile region1 bucket name1 stage1 contents
                    :: next :: after) :
  exists nm,
    chosen w "name" projName = Some nm
    /\ next = WriteFile (Path.join [rootOf w (projectName w nm); "back"; ".env"])
                        (Text contents).
Proof.
  unfold create in Htrace. rewrite trace_bind in Htrace.
  destruct (getAnswers_plain w projName stage0 bucket0 region0 email0 profile0 p0)
    as (answers & Ha & Hn & Hs & _ & _ & He).
  rewrite Ha in Htrace. cbn [trace result final fst snd app] in Htrace.
  destruct (chosen_truthy_Some w "name" projName) as [nm Hnm].
  destruct (chosen_truthy_Some w "stage" stage0) as [st Hst].
  destruct (chosen_truthy_Some w "notificationEmail" email0) as [em Hem].
  rewrite Hnm in Hn. rewrite Hst in Hs. rewrite Hem in He.
  exists nm. split; [exact Hnm |].
  rewrite trace_bind in Htrace.
  pose proof (prepare_emits w answers p0) as HP.
  destruct (prepare_run w answers p0 st nm em Hs Hn He) as (_ & _ & Hfin).
  assert (HP' : Forall (fun e => isPutEnvFile e = false)
                       (trace (_prepareProjectData w answers p0))).
  { eapply List.Forall_impl; [| exact HP]. intros e. apply putEnvFile_not_credential. }
  destruct (_prepareProjectData w answers p0) as [[p1 tP] [[] | e]];
    cbn [trace result final fst snd] in *.
  - specialize (Hfin eq_refl).
    assert (Hname : name p1 = Some (projectName w nm)) by now rewrite Hfin.
    rewrite trace_bind, storage_run in Htrace. cbv zeta in Htrace.
    set (b := CreateBucket _ _ _) in Htrace. set (f := PutEnvFile _ _ _ _ _ _) in Htrace.
    assert (HPb : Forall (fun e => isPutEnvFile e = false) (tP ++ [b])).
    { apply Forall_app. split; [exact HP' | repeat constructor]. }
    destruct (succeeds w b).
    + cbn [trace result final fst snd] in Htrace.
      pose proof (afterStorage_emits w noExeCf p1) as HL.
      assert (Hrest : exists tRest,
                 Forall (fun e => isPutEnvFile e = false) tRest
                 /\ (tRest = [] \/ exists more, tRest = envWrite (rootOf w (projectName w nm)) p1
                                                       :: more)
                 /\ tP ++ [b; f] ++ tRest
                    = before ++ PutEnvFile profile region1 bucket name1 stage1 contents
                             :: next :: after).
      { destruct (succeeds w f).
        - exists (trace ((_createProjectDirectory w ;;
                          (if noExeCf then _createProjectJson w None
                           else cfOutputs <- _createCfStack w ;;
                                _createProjectJson w cfOutputs)) p1)).
          split; [eapply List.Forall_impl; [| exact HL]; intros e;
                  apply putEnvFile_not_later |].
          split; [| exact Htrace]. right.
          rewrite trace_bind, (directory_run w p1 _ Hname). cbn [trace fst snd].
          destruct (succeeds w (envWrite _ _)); simpl; eauto.
        - exists []. split; [constructor |]. split; [now left | exact Htrace]. }
      destruct Hrest as (tRest & Hno & Hhead & Heq).
      change (tP ++ [b; f] ++ tRest) with (tP ++ [b] ++ f :: tRest) in Heq.
      rewrite app_assoc in Heq.
      destruct (first_of_kind isPutEnvFile _ _ _ _ _ Heq HPb eq_refl) as (pre' & _ & Hl2).
      destruct pre' as [|x pre']; simpl in Hl2.
      * injection Hl2 as _ _ _ _ _ Hc Hl2.
        destruct Hhead as [-> | [more ->]]; [discriminate Hl2 |].
        injection Hl2 as <- _. unfold envWrite. now rewrite Hc.
      * injection Hl2 as _ Hl2. rewrite Hl2 in Hno.
        apply Forall_app in Hno as [_ Hno]. inversion Hno as [|? ? Hx _]. discriminate Hx.
    + cbn [trace result final fst snd] in Htrace. rewrite app_nil_r in Htrace.
      rewrite Htrace in HPb. apply Forall_app in HPb as [_ HPb].
      inversion HPb as [|? ? Hx _]. discriminate Hx.
  - rewrite app_nil_r in Htrace. rewrite Htrace in HP'.
    apply Forall_app in HP' as [_ HP']. inversion HP' as [|? ? Hx _]. discriminate Hx.
Qed.

Lemma env_file_uploaded_then_written_witness :
  let tr := trace (create calmWorld (Some "demo") (Some "dev") (Some "demo.example.com")
                          (Some "us-east-1") (Some "ops@example.com") (Some "default")
                          true emptyProject) in
  tr = List.firstn 1 tr
       ++ PutEnvFile (Some "default") (Some "us-east-1") (Some "demo.example.com")
                     (Some "demo") (Some "dev") (envFile demoProject)
       :: List.nth 2 tr (Mkdir "") :: List.skipn 3 tr
  /\ exists nm,
      chosen calmWorld "name" (Some "demo") = Some nm
      /\ List.nth 2 tr (Mkdir "")
         = WriteFile (Path.join [rootOf calmWorld (projectName calmWorld nm); "back"; ".env"])
                     (Text (envFile demoProject)).
Proof.
  intros tr.
  refine ((fun H => conj H (env_file_uploaded_then_written
                              calmWorld (Some "demo") (Some "dev") (Some "demo.example.com")
                              (Some "us-east-1") (Some "ops@example.com") (Some "default")
                              true emptyProject _ _ _ _ _ _ _ _ _ H)) _).
  vm_compute. reflexivity.
Defined.

(** ** What is left of an earlier run *)

Lemma getAnswers_constant
      (w : World) (projName stage0 bucket0 region0 email0 profile0 : option string) :
  exists answers,
    forall p,
      _getAnswers w projName stage0 bucket0 region0 email0 profile0 p
      = (p, [], Resolved answers).
Proof.
  unfold _getAnswers.
  match goal with |- context [match fst ?x with _ => _ end] => destruct (fst x) end;
    eexists; intros p; reflexivity.
Qed.

Lemma directory_forgets_root (w : World) (p : Project) (x : option string) :
  _createProjectDirectory w (setRootPath x p) = _createProjectDirectory w p
  \/ (name p = None
      /\ trace (_createProjectDirectory w (setRootPath x p))
         = trace (_createProjectDirectory w p)
      /\ exists e, result (_createProjectDirectory w (setRootPath x p)) = Rejected e
                   /\ result (_createProjectDirectory w p) = Rejected e).
Proof.
  destruct (name p) as [n|] eqn:Hn.
  - left. rewrite (directory_run w p n Hn), (directory_run w (setRootPath x p) n Hn).
    reflexivity.
  - right. split; [reflexivity |]. unfold _createProjectDirectory.
    cbv beta iota zeta delta [bind get stringArg modify call callAll ret throw fst snd
                                   trace result].
    cbn [setRootPath name]. rewrite Hn. eauto.
Qed.

Lemma afterPrepare_forgets_root (w : World) (noExeCf : bool) (p : Project)
      (x : option string) :
  let m := (_createS3JawsStructure w ;;
            _createProjectDirectory w ;;
            (if noExeCf then _createProjectJson w None
             else cfOutputs <- _createCfStack w ;; _createProjectJson w cfOutputs)) in
  trace (m (setRootPath x p)) = trace (m p) /\ result (m (setRootPath x p)) = result (m p).
Proof.
  intros m. subst m.
  rewrite !(bind_unfold (_createS3JawsStructure w)), !storage_run. cbv zeta.
  change (envFile (setRootPath x p)) with (envFile p).
  cbn [setRootPath awsProfile region s3Bucket name stage].
  destruct (succeeds w (CreateBucket _ _ _)); [| split; reflexivity].
  destruct (succeeds w (PutEnvFile _ _ _ _ _ _)); [| split; reflexivity].
  cbn [final trace result fst snd].
  rewrite !(bind_unfold (_createProjectDirectory w)).
  destruct (directory_forgets_root w p x) as [-> | (_ & Ht & e & Hq & Hp)];
    [split; reflexivity |].
  destruct (_createProjectDirectory w (setRootPath x p)) as [[q1 t1] r1].
  destruct (_createProjectDirectory w p) as [[q2 t2] r2].
  cbn [trace result fst snd] in *. subst. split; reflexivity.
Qed.

(** X16. What [project] held before a run of [create] has no bearing on the
    run: the calls made and the way the run settles are the same from any
    two initial values of the module-level object. *)
Theorem create_forgets_project
        (w : World) (projName stage0 bucket0 region0 email0 profile0 : option string)
        (noExeCf : bool) (p0 p0' : Project) :
  trace (create w projName stage0 bucket0 region0 email0 profile0 noExeCf p0)
  = trace (create w projName stage0 bucket0 region0 email0 profile0 noExeCf p0')
  /\ result (create w projName stage0 bucket0 region0 email0 profile0 noExeCf p0)
     = result (create w projName stage0 bucket0 region0 email0 profile0 noExeCf p0').
Proof.
  unfold create. rewrite !(bind_unfold (_getAnswers _ _ _ _ _ _ _)).
  destruct (getAnswers_constant w projName stage0 bucket0 region0 email0 profile0)
    as [answers Ha].
  destruct (getAnswers_plain w projName stage0 bucket0 region0 email0 profile0 p0)
    as (answers' & Ha' & Hn & Hs & _ & _ & He).
  rewrite Ha in Ha'. injection Ha' as <-.
  rewrite !Ha. cbn [final trace result fst snd app].
  destruct (chosen_truthy_Some w "name" projName) as [nm Hnm].
  destruct (chosen_truthy_Some w "stage" stage0) as [st Hst].
  destruct (chosen_truthy_Some w "notificationEmail" email0) as [em Hem].
  rewrite Hnm in Hn. rewrite Hst in Hs. rewrite Hem in He.
  rewrite !(bind_unfold (_prepareProjectData w answers)).
  destruct (prepare_run w answers p0 st nm em Hs Hn He) as (Ht & Hr & Hfin).
  destruct (prepare_run w answers p0' st nm em Hs Hn He) as (Ht' & Hr' & Hfin').
  destruct (_prepareProjectData w answers p0) as [[p1 t1] r1].
  destruct (_prepareProjectData w answers p0') as [[p1' t1'] r1'].
  cbn [final trace result fst snd] in *.
  rewrite <- Hr' in Hr. rewrite <- Ht' in Ht. subst r1' t1'.
  destruct r1 as [[] | e]; [| split; reflexivity].
  specialize (Hfin eq_refl). specialize (Hfin' eq_refl).
  assert (Hp1 : p1' = setRootPath (rootPath p0') p1) by (rewrite Hfin, Hfin'; reflexivity).
  rewrite Hp1.
  destruct (afterPrepare_forgets_root w noExeCf p1 (rootPath p0')) as [E1 E2].
  cbv zeta in E1, E2. cbn [final trace result fst snd]. rewrite E1, E2. split; reflexivity.
Qed.

(** ** Paths below the project root *)





























(** ** More on the exclusion matcher *)

Section RuntimeBase.

Import ServerlessRuntimeBase.

Lemma some_firstMatch (RegExp : string -> option (string -> bool))
      (patterns : list string) (relPath : string) :
  Js.charAt0Is Path.sepChar (stripLeadingSep relPath) = false ->
  some RegExp relPath patterns = firstMatch RegExp (stripLeadingSep relPath) patterns.
Proof.
  revert relPath. induction patterns as [|p rest IH]; intros relPath Hrel; simpl;
    [reflexivity |].
  destruct (RegExp p) as [re|]; [| reflexivity].
  destruct (re (stripLeadingSep relPath)); [reflexivity |].
  rewrite IH; rewrite ?(stripLeadingSep_id _ Hrel); auto.
Qed.

(** X18. The variable the callback of [_exclude] reassigns has no effect:
    the matcher tries the patterns in order against one and the same
    candidate, the relative path without its leading separator; it stops at
    the first pattern that matches, and throws at a pattern that is no
    regular expression. *)
Theorem exclude_is_stateless
        (RegExp : string -> option (string -> bool)) (func : Func)
        (pathDist stage region name prefix : string) :
  _exclude RegExp func pathDist stage region name prefix
  = firstMatch RegExp (relativePath pathDist prefix name) (patternsOf func).
Proof.
  unfold _exclude. destruct (patternsOf func) as [|p ps] eqn:E; [reflexivity |].
  apply some_firstMatch, join_one_leading_sep.
Qed.

Lemma firstMatch_app_true (RegExp : string -> option (string -> bool))
      (candidate : string) (ps more : list string) :
  firstMatch RegExp candidate ps = Return true ->
  firstMatch RegExp candidate (ps ++ more) = Return true.
Proof.
  induction ps as [|p ps IH]; simpl; [discriminate |].
  destruct (RegExp p) as [re|]; [| discriminate].
  destruct (re candidate); auto.
Qed.

(** X19. Once a pattern has excluded a candidate, patterns added after it
    change nothing, even one that is no regular expression. *)
Theorem exclude_short_circuit
        (RegExp : string -> option (string -> bool)) (func func' : Func)
        (more : list string) (pathDist stage region name prefix : string)
        (Hexcluded : _exclude RegExp func pathDist stage region name prefix = Return true)
        (Hmore : patternsOf func' = patternsOf func ++ more) :
  _exclude RegExp func' pathDist stage region name prefix = Return true.
Proof.
  unfold _exclude in *. rewrite Hmore.
  destruct (patternsOf func) as [|p ps]; [discriminate Hexcluded |].
  cbn [app]. rewrite some_firstMatch in * by apply join_one_leading_sep.
  now apply (firstMatch_app_true RegExp _ (p :: ps) more).
Qed.


Lemma exclude_short_circuit_witness :
  _exclude sampleRegExp sampleFunc "/tmp/dist" "dev" "us-east-1" "foo.js"
           "/tmp/dist/tests/unit" = Return true
  /\ patternsOf brokenFunc = patternsOf sampleFunc ++ ["*"]
  /\ _exclude sampleRegExp brokenFunc "/tmp/dist" "dev" "us-east-1" "foo.js"
              "/tmp/dist/tests/unit" = Return true.
Proof.
  refine ((fun H1 H2 => conj H1 (conj H2
            (exclude_short_circuit sampleRegExp sampleFunc brokenFunc ["*"] "/tmp/dist"
                                   "dev" "us-east-1" "foo.js" "/tmp/dist/tests/unit"
                                   H1 H2))) _ _); reflexivity.
Defined.


(** ** The package root of a valid handler *)

Lemma startsWith_drop (pat s : string) :
  Js.startsWith pat s = true -> s = (pat ++ Js.drop (String.length pat) s)%string.
Proof.
  revert s. induction pat as [|a pat IH]; intros s H; [reflexivity |].
  destruct s as [|b s]; [discriminate H |]. simpl in H.
  apply andb_true_iff in H as [Hab H]. apply Ascii.eqb_eq in Hab as ->.
  change (String b s = String b (pat ++ Js.drop (String.length pat) s)).
  f_equal. now apply IH.
Qed.

(** Where [indexOf] finds the pattern, and what [replace] leaves. *)
Lemma first_occurrence (s pat : string) :
  occursIn pat s ->
  exists pre post,
    s = (pre ++ pat ++ post)%string
    /\ Js.indexOf s pat = Z.of_nat (String.length pre)
    /\ Js.replace s pat "" = (pre ++ post)%string.
Proof.
  unfold Js.indexOf.
  assert (H : forall i, occursIn pat s ->
              exists pre post,
                s = (pre ++ pat ++ post)%string
                /\ Js.indexOfFrom i s pat = (i + Z.of_nat (String.length pre))%Z
                /\ Js.replace s pat "" = (pre ++ post)%string).
  { induction s as [|c s IH]; intros i Hocc.
    - destruct Hocc as (pre & post & Hs). exists "", "".
      assert (Hp : pat = EmptyString).
      { destruct pre; [| discriminate Hs]. destruct pat; [reflexivity | discriminate Hs]. }
      subst pat. simpl. repeat split. lia.
    - simpl. destruct (Js.startsWith pat (String c s)) eqn:E.
      + exists "", (Js.drop (String.length pat) (String c s)).
        split; [now apply startsWith_drop |]. split; [simpl; lia | reflexivity].
      + apply occursIn_cons in Hocc as [Hocc | Hocc]; [congruence |].
        destruct (IH (i + 1)%Z Hocc) as (pre & post & Hs & Hi & Hr).
        exists (String c pre), post. rewrite Hi, Hr.
        split; [now rewrite Hs |]. split; [| reflexivity].
        cbn [String.length]. lia. }
  intros Hocc. destruct (H 0%Z Hocc) as (pre & post & Hs & Hi & Hr).
  exists pre, post. now rewrite Hi.
Qed.

(** X21. For a handler that passes the check, exactly one copy is started:
    into [pathDist], from the full path of the handler file with the first
    occurrence of the declared handler taken out (what comes before it
    followed by what comes after it). *)
Theorem package_root_of_valid_handler
        (RegExp : string -> option (string -> bool))
        (copyDirSyncRecursive :
           node -> string -> string -> (string -> string -> completion bool) -> completion node)
        (func : Func) (pathDist stage region : string) (disk : node)
        (Hinside : resolvesInside func) :
  exists before after,
    getRootPath func (handlerFileName func) = (before ++ handler func ++ after)%string
    /\ Js.indexOf (getRootPath func (handlerFileName func)) (handler func)
       = Z.of_nat (String.length before)
    /\ snd (fst (_copyDir RegExp copyDirSyncRecursive func pathDist stage region disk))
       = [ CopyDirSyncRecursive (before ++ after) pathDist (excludePatterns func) ].
Proof.
  destruct (first_occurrence _ _ Hinside) as (before & after & Hs & Hi & Hr).
  exists before, after. split; [exact Hs |]. split; [exact Hi |].
  unfold _copyDir, copyBody. rewrite Hi, Hr.
  destruct (Z.eqb_spec (Z.of_nat (String.length before)) (-1)) as [E | _]; [lia |].
  now destruct (copyDirSyncRecursive _ _ _ _).
Qed.

Lemma sampleFunc_inside : resolvesInside sampleFunc.
Proof. exists "/proj/functions/", "". reflexivity. Qed.

Lemma package_root_of_valid_handler_witness :
  resolvesInside sampleFunc
  /\ exists before after,
      getRootPath sampleFunc (handlerFileName sampleFunc)
      = (before ++ handler sampleFunc ++ after)%string
      /\ Js.indexOf (getRootPath sampleFunc (handlerFileName sampleFunc)) (handler sampleFunc)
         = Z.of_nat (String.length before)
      /\ snd (fst (_copyDir sampleRegExp (fun d _ _ _ => Return d) sampleFunc
                              "/proj/_meta/_tmp/hello@1" "dev" "us-east-1" (diskWith [])))
         = [ CopyDirSyncRecursive (before ++ after) "/proj/_meta/_tmp/hello@1"
                                  (excludePatterns sampleFunc) ].
Proof.
  split; [exact sampleFunc_inside |].
  exact (package_root_of_valid_handler sampleRegExp (fun d _ _ _ => Return d) sampleFunc
           "/proj/_meta/_tmp/hello@1" "dev" "us-east-1" (diskWith []) sampleFunc_inside).
Defined.

(** ** More on the include paths *)

Section IncludePaths.

Variable cwd0 : string.
Variable disk : node.
Variable pathDist : string.

Lemma eachIncludePath_missing (ps : list string) (p : string)
      (compressPaths : list compressPath) :
  In p ps -> Fs.lstatSync disk (fullPathOf cwd0 pathDist p) = None ->
  exists pth, eachIncludePath cwd0 disk pathDist ps compressPaths = Throw (ENOENT pth).
Proof.
  intros Hin Hmissing. revert compressPaths.
  induction ps as [|q ps IH]; intros compressPaths; [destruct Hin |].
  simpl. fold (fullPathOf cwd0 pathDist q).
  destruct (Fs.lstatSync disk (fullPathOf cwd0 pathDist q)) as [[|es]|] eqn:E.
  - destruct Hin as [-> | Hin]; [unfold fullPathOf in *; congruence | now apply IH].
  - destruct Hin as [-> | Hin]; [unfold fullPathOf in *; congruence |].
    match goal with |- context [eachFile ?a ?b ?c ?d ?e] => destruct (eachFile a b c d e) eqn:EF end.
    + now apply IH.
    + clear - EF.
      match type of EF with eachFile _ _ _ ?fs ?acc = _ => revert EF; generalize acc; generalize fs end.
      intros fs. induction fs as [|f fs IHf]; intros acc; simpl; [discriminate |].
      destruct (ignored f); [apply IHf |].
      destruct (Fs.lstatSync disk _) as [[|es']|]; [apply IHf | apply IHf |].
      intros H. injection H as <-. eauto.
  - eauto.
Qed.

Lemma eachFile_files (fullPath dirname : string) (files : list string)
      (compressPaths l : list compressPath) :
  Forall (fun e => Fs.lstatSync disk (path e) = Some File) compressPaths ->
  eachFile disk fullPath dirname files compressPaths = Return l ->
  Forall (fun e => Fs.lstatSync disk (path e) = Some File) l.
Proof.
  revert compressPaths. induction files as [|f files IH]; intros acc Hacc; simpl.
  - intros H. injection H as <-. exact Hacc.
  - destruct (ignored f); [now apply IH |].
    destruct (Fs.lstatSync disk (Path.join [fullPath; f])) as [[|es]|] eqn:E;
      [| now apply IH | discriminate].
    apply IH. apply Forall_app. split; [exact Hacc |]. repeat constructor. exact E.
Qed.

Lemma eachIncludePath_files (ps : list string) (compressPaths l : list compressPath) :
  Forall (fun e => Fs.lstatSync disk (path e) = Some File) compressPaths ->
  eachIncludePath cwd0 disk pathDist ps compressPaths = Return l ->
  Forall (fun e => Fs.lstatSync disk (path e) = Some File) l.
Proof.
  revert compressPaths. induction ps as [|p ps IH]; intros acc Hacc; simpl.
  - intros H. injection H as <-. exact Hacc.
  - fold (fullPathOf cwd0 pathDist p).
    destruct (Fs.lstatSync disk (fullPathOf cwd0 pathDist p)) as [[|es]|] eqn:E; [| | discriminate].
    + apply IH. apply Forall_app. split; [exact Hacc |]. repeat constructor. exact E.
    + match goal with |- context [eachFile ?a ?b ?c ?d ?e] => destruct (eachFile a b c d e) eqn:EF end;
        [| discriminate].
      apply IH. eapply eachFile_files; eassumption.
Qed.

Lemma eachIncludePath_all_files (ps : list string) (compressPaths : list compressPath) :
  Forall (fun p => Fs.lstatSync disk (fullPathOf cwd0 pathDist p) = Some File) ps ->
  eachIncludePath cwd0 disk pathDist ps compressPaths
  = Return (compressPaths
            ++ List.map (fun p => {| name := p; path := fullPathOf cwd0 pathDist p |}) ps).
Proof.
  revert compressPaths. induction ps as [|p ps IH]; intros acc H; simpl.
  - now rewrite app_nil_r.
  - inversion H as [|? ? Hp Hps]; subst. fold (fullPathOf cwd0 pathDist p). rewrite Hp.
    rewrite IH by assumption. now rewrite <- app_assoc.
Qed.

End IncludePaths.

(** X22. When one of the include paths does not exist below [pathDist],
    [_generateIncludePaths] throws and returns no list. *)
Theorem include_path_missing
        (cwd0 : string) (func : Func) (pathDist : string) (disk : node) (p : string)
        (Hin : In p (includePathsOf func))
        (Hmissing : Fs.lstatSync disk (fullPathOf cwd0 pathDist p) = None) :
  exists pth, _generateIncludePaths cwd0 func pathDist disk = Throw (ENOENT pth).
Proof.
  unfold _generateIncludePaths. fold (includePathsOf func).
  destruct (eachIncludePath_missing cwd0 disk pathDist _ p [] Hin Hmissing) as [pth ->].
  eauto.
Qed.

Lemma include_path_missing_witness :
  In "." (includePathsOf dotFunc)
  /\ Fs.lstatSync (diskWith distEntries) (fullPathOf "/" "/elsewhere" ".") = None
  /\ exists pth,
      _generateIncludePaths "/" dotFunc "/elsewhere" (diskWith distEntries)
      = Throw (ENOENT pth).
Proof.
  refine ((fun H1 H2 => conj H1 (conj H2
            (include_path_missing "/" dotFunc "/elsewhere" (diskWith distEntries) "."
                                  H1 H2))) _ _);
    [left; reflexivity | reflexivity].
Defined.

(** X23. Every entry of a list [_generateIncludePaths] resolves with points
    at a regular file of the disk: directories are never listed. *)
Theorem manifest_entries_are_files
        (cwd0 : string) (func : Func) (pathDist : string) (disk : node)
        (l : list compressPath)
        (Hrun : _generateIncludePaths cwd0 func pathDist disk
                = Return (Resolved (CompressPaths l))) :
  Forall (fun e => Fs.lstatSync disk (path e) = Some File) l.
Proof.
  unfold _generateIncludePaths in Hrun.
  destruct (eachIncludePath cwd0 disk pathDist _ []) as [l'|] eqn:E; [| discriminate Hrun].
  injection Hrun as <-. eapply eachIncludePath_files; [| exact E]. constructor.
Qed.

Lemma manifest_entries_are_files_witness :
  exists l,
    _generateIncludePaths "/" dotFunc "/dist" (diskWith distEntries)
    = Return (Resolved (CompressPaths l))
    /\ Forall (fun e => Fs.lstatSync (diskWith distEntries) (path e) = Some File) l.
Proof.
  eexists.
  refine ((fun H => conj H (manifest_entries_are_files "/" dotFunc "/dist"
                              (diskWith distEntries) _ H)) _).
  vm_compute. reflexivity.
Defined.

(** X24. When every include path is a regular file, the list has one entry
    per include path, in the order given, named by the include path as
    written and pointing at its resolved location. *)
Theorem file_include_paths_kept
        (cwd0 : string) (func : Func) (pathDist : string) (disk : node)
        (Hfiles : Forall (fun p => Fs.lstatSync disk (fullPathOf cwd0 pathDist p) = Some File)
                         (includePathsOf func)) :
  _generateIncludePaths cwd0 func pathDist disk
  = Return (Resolved (CompressPaths
      (List.map (fun p => {| name := p; path := fullPathOf cwd0 pathDist p |})
                (includePathsOf func)))).
Proof.
  unfold _generateIncludePaths. fold (includePathsOf func).
  now rewrite (eachIncludePath_all_files cwd0 disk pathDist _ [] Hfiles).
Qed.

Lemma file_include_paths_kept_witness :
  Forall (fun p => Fs.lstatSync (diskWith distEntries) (fullPathOf "/" "/dist" p) = Some File)
         (includePathsOf filesFunc)
  /\ _generateIncludePaths "/" filesFunc "/dist" (diskWith distEntries)
     = Return (Resolved (CompressPaths
         (List.map (fun p => {| name := p; path := fullPathOf "/" "/dist" p |})
                   (includePathsOf filesFunc)))).
Proof.
  refine ((fun H => conj H (file_include_paths_kept "/" filesFunc "/dist"
                              (diskWith distEntries) H)) _).
  repeat constructor.
Defined.

End RuntimeBase.
